(** * databasus-mcp: the API client and the two configuration redactors

    A shallow embedding of
      - the class [DatabasusClient] of [client.ts]: its constructor,
        [getHeaders], [request] and [extractErrorMessage];
      - [maskSensitiveConfig] of [tools/storages.ts], the storage redactor;
      - [maskSensitiveConfig] of [tools/notifiers.ts], the notifier redactor;
    followed by the properties the specification states about them.

    Strings are sequences of characters ([string] of the standard library);
    [toLowerCase] is modelled on the ASCII letters, every other character is
    left as it is. [JSON.parse], [JSON.stringify] and [fetch] belong to the
    platform and are parameters of the client. *)

From Stdlib Require Import String Ascii List Bool Arith PeanoNat Lia ZArith.
From Stdlib Require Import DecimalString DecimalNat FinFun.
Import ListNotations.

Local Open Scope list_scope.
Local Open Scope string_scope.

(** ** Runtime values

    The values a configuration map can hold are the ones [JSON.parse]
    produces. A number is carried around and never computed with. An object
    is the list of its own enumerable properties in the order in which
    [Object.entries] reports them. *)

Unset Elimination Schemes.
Inductive value : Type :=
| VNull
| VBool (b : bool)
| VNum (n : Z)
| VStr (s : string)
| VArr (items : list value)
| VObj (props : list (string * value)).
Set Elimination Schemes.

(** ** Induction over values, with the items of arrays and the property
       values of objects as premises *)

Section ValueInduction.

Variable P : value -> Prop.
Hypothesis HNull : P VNull.
Hypothesis HBool : forall b, P (VBool b).
Hypothesis HNum : forall n, P (VNum n).
Hypothesis HStr : forall s, P (VStr s).
Hypothesis HArr : forall items, Forall P items -> P (VArr items).
Hypothesis HObj :
  forall props, Forall (fun kv => P (snd kv)) props -> P (VObj props).

Fixpoint value_ind (v : value) : P v :=
  match v with
  | VNull => HNull
  | VBool b => HBool b
  | VNum n => HNum n
  | VStr s => HStr s
  | VArr items =>
      HArr items
        (list_ind (Forall P) (Forall_nil P)
           (fun x rest IH => Forall_cons x (value_ind x) IH) items)
  | VObj props =>
      HObj props
        (list_ind (Forall (fun kv => P (snd kv))) (Forall_nil _)
           (fun kv rest IH =>
              Forall_cons (P := fun kv => P (snd kv)) kv
                (value_ind (snd kv)) IH) props)
  end.

End ValueInduction.

(** [Record<string, T>] *)
Definition record (T : Type) : Type := list (string * T).

Definition obj : Type := record value.

(** [typeof v === 'string'] *)
Definition isString (v : value) : bool :=
  match v with VStr _ => true | _ => false end.

(** [typeof v === 'object' && v !== null]: arrays are objects too. *)
Definition isObjectLike (v : value) : bool :=
  match v with VArr _ | VObj _ => true | _ => false end.

(** ** Strings *)

Module Str.

Definition lowerChar (c : ascii) : ascii :=
  let n := nat_of_ascii c in
  if ((65 <=? n) && (n <=? 90))%nat then ascii_of_nat (n + 32) else c.

(** [s.toLowerCase()] *)
Fixpoint toLowerCase (s : string) : string :=
  match s with
  | EmptyString => EmptyString
  | String c r => String (lowerChar c) (toLowerCase r)
  end.

(** [s.includes(sub)] *)
Fixpoint includes (s sub : string) : bool :=
  if prefix sub s then true
  else match s with
       | EmptyString => false
       | String _ r => includes r sub
       end.

(** The decimal numeral of a natural number, as a template literal or a
    property key renders it. *)
Definition ofNat (n : nat) : string :=
  NilEmpty.string_of_uint (Nat.to_uint n).

(** [s.replace(/\/$/, '')]: the pattern matches at the first position
    where what is left of the input is exactly one slash; that match is
    replaced by the empty string. *)
Fixpoint replaceTrailingSlash (s : string) : string :=
  if s =? "/" then EmptyString
  else match s with
       | EmptyString => EmptyString
       | String c r => String c (replaceTrailingSlash r)
       end.

End Str.

(** ** Plain objects used as maps *)

Module Obj.

Section WithValues.
Context {T : Type}.

(** Reading an own property. *)
Fixpoint get (o : record T) (key : string) : option T :=
  match o with
  | [] => None
  | (k, v) :: rest => if k =? key then Some v else get rest key
  end.

(** Writing an own data property: an existing key keeps its place, a new
    key goes last. *)
Fixpoint define (o : record T) (key : string) (v : T) : record T :=
  match o with
  | [] => [(key, v)]
  | (k, w) :: rest =>
      if k =? key then (k, v) :: rest else (k, w) :: define rest key v
  end.

(** [o[key] = v] on an object created by an object literal. The
    assignment goes through the prototype chain first: [__proto__] is an
    accessor of [Object.prototype], so assigning to that key runs the
    setter (which changes the prototype or does nothing) and creates no
    own property. Every other key becomes, or updates, an own property. *)
Definition set (o : record T) (key : string) (v : T) : record T :=
  if key =? "__proto__" then o else define o key v.

Definition keys (o : record T) : list string := map fst o.

End WithValues.

(** The index keys of an array, paired with its items from index [i] on. *)
Fixpoint indexed (i : nat) (items : list value) : obj :=
  match items with
  | [] => []
  | x :: rest => (Str.ofNat i, x) :: indexed (S i) rest
  end.

(** [Object.entries(v)] for the objects and arrays a configuration holds. *)
Definition entries (v : value) : obj :=
  match v with
  | VObj props => props
  | VArr items => indexed 0 items
  | _ => []
  end.

End Obj.

(** ** The redactors *)

(** [keys.some(k => lowerKey.includes(k))] *)
Definition matchesAny (sensitive : list string) (lowerKey : string) : bool :=
  existsb (fun k => Str.includes lowerKey k) sensitive.

(** *** tools/storages.ts *)

Module Storages.

Definition SENSITIVE_KEYS : list string :=
  ["password"; "secret"; "key"; "token"; "credential"; "apiKey"; "api_key";
   "accessKey"; "access_key"; "secretKey"; "secret_key"].

Definition marker : string := "***".

Definition isSensitive (key : string) : bool :=
  matchesAny SENSITIVE_KEYS (Str.toLowerCase key).

(** The body of the loop: what [masked[key]] is assigned, given the result
    [nested] of the recursive call on [v]. *)
Definition maskedValue (key : string) (v nested : value) : value :=
  if isSensitive key && isString v then VStr marker
  else if isObjectLike v then nested
  else v.

(** [maskSensitiveConfig(v as Record<string, unknown>)] as a value, for the
    recursive call; the loop over [Object.entries] is unfolded for objects
    and for arrays. *)
Fixpoint maskNested (v : value) : value :=
  match v with
  | VObj props =>
      VObj ((fix loop (es : obj) (masked : obj) : obj :=
               match es with
               | [] => masked
               | (key, x) :: rest =>
                   loop rest
                     (Obj.set masked key (maskedValue key x (maskNested x)))
               end) props [])
  | VArr items =>
      VObj ((fix loop (i : nat) (xs : list value) (masked : obj) : obj :=
               match xs with
               | [] => masked
               | x :: rest =>
                   loop (S i) rest
                     (Obj.set masked (Str.ofNat i)
                        (maskedValue (Str.ofNat i) x (maskNested x)))
               end) 0 items [])
  | _ => v
  end.

Definition maskSensitiveConfig (config : obj) : obj :=
  fold_left
    (fun masked '(key, v) =>
       Obj.set masked key (maskedValue key v (maskNested v)))
    config [].

End Storages.

(** *** tools/notifiers.ts *)

Module Notifiers.

Definition sensitiveKeys : list string :=
  ["url"; "webhook_url"; "webhookUrl"; "token"; "api_key"; "apiKey";
   "password"; "secret"; "bot_token"; "botToken"; "access_token";
   "accessToken"].

Definition marker : string := "***REDACTED***".

Definition isSensitive (key : string) : bool :=
  matchesAny sensitiveKeys (Str.toLowerCase key).

Definition maskedValue (key : string) (v : value) : value :=
  if isSensitive key && isString v then VStr marker else v.

Definition maskSensitiveConfig (config : obj) : obj :=
  fold_left
    (fun masked '(key, v) => Obj.set masked key (maskedValue key v))
    config [].

End Notifiers.

(** ** The API client (client.ts) *)

Module Types.

(** [interface DatabasusConfig]; an optional field that is absent is
    [None]. *)
Record DatabasusConfig : Type := {
  baseUrl : string;
  apiKey : option string;
  bearerToken : option string
}.

End Types.

Module Client.

(** The private fields of the class. *)
Record DatabasusClient : Type := {
  baseUrl : string;
  apiKey : option string;
  bearerToken : option string
}.

Definition constructor (config : Types.DatabasusConfig) : DatabasusClient :=
  {| baseUrl := Str.replaceTrailingSlash (Types.baseUrl config);
     apiKey := Types.apiKey config;
     bearerToken := Types.bearerToken config |}.

(** A method runs against [this] and hands back its result together with
    the fields as it leaves them. *)
Definition Method (A : Type) : Type := DatabasusClient -> A * DatabasusClient.

Definition ret {A} (a : A) : Method A := fun this => (a, this).

Definition bind {A B} (m : Method A) (k : A -> Method B) : Method B :=
  fun this => let '(a, this') := m this in k a this'.

Definition field {A} (f : DatabasusClient -> A) : Method A :=
  fun this => (f this, this).

Notation "x <- m ;; k" := (bind m (fun x => k))
  (at level 61, m at next level, right associativity).

(** [RequestInit], with the three members [request] fills in. *)
Record RequestInit : Type := {
  method : string;
  headers : record string;
  body : option string
}.

(** What a promise can reject with: an [Error] and its message, or a value
    that is no [Error]. *)
Inductive rejection : Type :=
| ErrorInstance (message : string)
| NotAnError.

(** A [Response]: its status, and what [response.text()] settles to. *)
Record Response : Type := {
  status : nat;
  text : rejection + string
}.

(** [response.ok]: the status is in the range 200 to 299. *)
Definition ok (response : Response) : bool :=
  ((200 <=? status response) && (status response <=? 299))%nat.

(** The three [throw new Error(...)] statements of [request], named after
    the error kinds of the specification. The thrown object is a plain
    [Error] in all three; the kind records which statement threw. *)
Inductive errorKind : Type :=
| NetworkError
| ResponseFormatError
| ApiError.

(** How the promise [request] returns settles; [Resolved None] is a
    promise resolved with [undefined]. *)
Inductive outcome : Type :=
| Resolved (data : option value)
| Threw (kind : errorKind) (message : string)
| Passed (reason : rejection).

(** Truthiness of an optional payload. *)
Definition truthy (v : option value) : bool :=
  match v with
  | None | Some VNull | Some (VBool false) | Some (VStr EmptyString) => false
  | Some (VNum n) => negb (n =? 0)%Z
  | Some _ => true
  end.

(** [data.error] and [data.message], the two properties that are read: an
    object has them as own properties or not at all, an array has only its
    indices, so the lookup goes through the entries. *)
Definition property (data : option value) (name : string) : option value :=
  match data with
  | Some v => Obj.get (Obj.entries v) name
  | None => None
  end.

Definition extractErrorMessage (data : option value) (status : nat)
  : string :=
  let fallback := "HTTP error " ++ Str.ofNat status in
  match data with
  | Some v =>
      if isObjectLike v then
        match property data "error" with
        | Some (VStr error) => error
        | _ =>
            match property data "message" with
            | Some (VStr message) => message
            | _ => fallback
            end
        end
      else fallback
  | None => fallback
  end.

Definition getHeaders : Method (record string) :=
  token <- field bearerToken ;;
  key <- field apiKey ;;
  let headers := [("Content-Type", "application/json")] in
  ret (match token with
       | Some (String _ _ as token) =>
           Obj.set headers "Authorization" ("Bearer " ++ token)
       | _ =>
           match key with
           | Some (String _ _ as key) => Obj.set headers "X-API-Key" key
           | _ => headers
           end
       end).

Section Platform.

(** [JSON.parse]; [None] when it throws. *)
Variable JSON_parse : string -> option value.
(** [JSON.stringify] *)
Variable JSON_stringify : value -> string.
(** [fetch]: the promise rejects, or resolves with a response. *)
Variable fetch : string -> RequestInit -> rejection + Response.

(** The arguments [request] calls [fetch] with. *)
Definition fetchArguments (method path : string) (body : option value)
  : Method (string * RequestInit) :=
  base <- field baseUrl ;;
  let url := base ++ path in
  headers <- getHeaders ;;
  let options := {| method := method; headers := headers; body := None |} in
  let options :=
    match body with
    | Some payload =>
        if truthy body
        then {| method := method; headers := headers;
                body := Some (JSON_stringify payload) |}
        else options
    | None => options
    end in
  ret (url, options).

(** What [request] makes of the settled [fetch] promise. *)
Definition settle (fetched : rejection + Response) : outcome :=
  match fetched with
  | inl error =>
      Threw NetworkError
        ("Network error: " ++
           match error with
           | ErrorInstance message => message
           | NotAnError => "Unknown error"
           end)
  | inr response =>
      match text response with
      | inl reason => Passed reason
      | inr responseText =>
          let checkStatus (data : option value) : outcome :=
            if negb (ok response)
            then Threw ApiError
                   (extractErrorMessage data (status response))
            else Resolved data in
          match responseText with
          | EmptyString => checkStatus None
          | String _ _ =>
              match JSON_parse responseText with
              | Some data => checkStatus (Some data)
              | None =>
                  Threw ResponseFormatError
                    ("Invalid JSON response: " ++
                       substring 0 100 responseText)
              end
          end
      end
  end.

Definition request (method path : string) (body : option value)
  : Method outcome :=
  call <- fetchArguments method path body ;;
  ret (settle (fetch (fst call) (snd call))).

(** Some of the operations; each is one call of [request]. *)
Definition getDatabases : Method outcome :=
  request "GET" "/api/databases" None.

Definition createDatabase (data : value) : Method outcome :=
  request "POST" "/api/databases" (Some data).

(** [Promise<void>]: the value [request] resolves with is dropped. *)
Definition deleteDatabase (id : string) : Method outcome :=
  settled <- request "DELETE" ("/api/databases/" ++ id) None ;;
  ret (match settled with
       | Resolved _ => Resolved None
       | other => other
       end).

End Platform.

End Client.

(** * The rest of the client: its operations (client.ts) *)

Module Operations.

Section Platform.

Variable JSON_parse : string -> option value.
Variable JSON_stringify : value -> string.
Variable fetch :
  string -> Client.RequestInit -> Client.rejection + Client.Response.

Local Abbreviation request :=
  (Client.request JSON_parse JSON_stringify fetch).
Notation "x <- m ;; k" := (Client.bind m (fun x => k))
  (at level 61, m at next level, right associativity).

(** [await this.request<void>(...)] in a method of type [Promise<void>]:
    the value is dropped, a rejection is the method's own. *)
Definition discard (settled : Client.outcome) : Client.outcome :=
  match settled with
  | Client.Resolved _ => Client.Resolved None
  | other => other
  end.

(** Database operations *)
Definition getDatabase (id : string) : Client.Method Client.outcome :=
  request "GET" ("/api/databases/" ++ id) None.

Definition updateDatabase (id : string) (data : value)
  : Client.Method Client.outcome :=
  request "PUT" ("/api/databases/" ++ id) (Some data).

Definition triggerBackup (id : string) : Client.Method Client.outcome :=
  request "POST" ("/api/databases/" ++ id ++ "/backup") None.

(** Backup operations *)
Definition getBackups (databaseId : option string)
  : Client.Method Client.outcome :=
  let path :=
    match databaseId with
    | Some (String _ _ as databaseId) =>
        "/api/backups?databaseId=" ++ databaseId
    | _ => "/api/backups"
    end in
  request "GET" path None.

Definition getBackup (id : string) : Client.Method Client.outcome :=
  request "GET" ("/api/backups/" ++ id) None.

Definition downloadBackup (id : string) : Client.Method Client.outcome :=
  request "GET" ("/api/backups/" ++ id ++ "/download") None.

Definition deleteBackup (id : string) : Client.Method Client.outcome :=
  settled <- request "DELETE" ("/api/backups/" ++ id) None ;;
  Client.ret (discard settled).

(** Storage operations *)
Definition getStorages : Client.Method Client.outcome :=
  request "GET" "/api/storages" None.

Definition getStorage (id : string) : Client.Method Client.outcome :=
  request "GET" ("/api/storages/" ++ id) None.

Definition createStorage (data : value) : Client.Method Client.outcome :=
  request "POST" "/api/storages" (Some data).

Definition updateStorage (id : string) (data : value)
  : Client.Method Client.outcome :=
  request "PUT" ("/api/storages/" ++ id) (Some data).

Definition deleteStorage (id : string) : Client.Method Client.outcome :=
  settled <- request "DELETE" ("/api/storages/" ++ id) None ;;
  Client.ret (discard settled).

Definition testStorage (id : string) : Client.Method Client.outcome :=
  request "POST" ("/api/storages/" ++ id ++ "/test") None.

(** Notifier operations *)
Definition getNotifiers : Client.Method Client.outcome :=
  request "GET" "/api/notifiers" None.

Definition getNotifier (id : string) : Client.Method Client.outcome :=
  request "GET" ("/api/notifiers/" ++ id) None.

Definition createNotifier (data : value) : Client.Method Client.outcome :=
  request "POST" "/api/notifiers" (Some data).

Definition updateNotifier (id : string) (data : value)
  : Client.Method Client.outcome :=
  request "PUT" ("/api/notifiers/" ++ id) (Some data).

Definition deleteNotifier (id : string) : Client.Method Client.outcome :=
  settled <- request "DELETE" ("/api/notifiers/" ++ id) None ;;
  Client.ret (discard settled).

Definition testNotifier (id : string) : Client.Method Client.outcome :=
  request "POST" ("/api/notifiers/" ++ id ++ "/test") None.

(** Workspace operations *)
Definition getWorkspaces : Client.Method Client.outcome :=
  request "GET" "/api/workspaces" None.

Definition getWorkspace (id : string) : Client.Method Client.outcome :=
  request "GET" ("/api/workspaces/" ++ id) None.

(** Health check operations *)
Definition getHealthChecks (databaseId : string)
  : Client.Method Client.outcome :=
  request "GET" ("/api/databases/" ++ databaseId ++ "/health-checks") None.

Definition getLatestHealthCheck (databaseId : string)
  : Client.Method Client.outcome :=
  request "GET"
    ("/api/databases/" ++ databaseId ++ "/health-checks/latest") None.

(** Statistics *)
Definition getStats : Client.Method Client.outcome :=
  request "GET" "/api/stats" None.

End Platform.

(** The public methods of the client, by name and arguments. *)
Inductive operation : Type :=
| GetDatabases
| GetDatabase (id : string)
| CreateDatabase (data : value)
| UpdateDatabase (id : string) (data : value)
| DeleteDatabase (id : string)
| TriggerBackup (id : string)
| GetBackups (databaseId : option string)
| GetBackup (id : string)
| DownloadBackup (id : string)
| DeleteBackup (id : string)
| GetStorages
| GetStorage (id : string)
| CreateStorage (data : value)
| UpdateStorage (id : string) (data : value)
| DeleteStorage (id : string)
| TestStorage (id : string)
| GetNotifiers
| GetNotifier (id : string)
| CreateNotifier (data : value)
| UpdateNotifier (id : string) (data : value)
| DeleteNotifier (id : string)
| TestNotifier (id : string)
| GetWorkspaces
| GetWorkspace (id : string)
| GetHealthChecks (databaseId : string)
| GetLatestHealthCheck (databaseId : string)
| GetStats.

Section Run.

Variable JSON_parse : string -> option value.
Variable JSON_stringify : value -> string.
Variable fetch :
  string -> Client.RequestInit -> Client.rejection + Client.Response.

(** Calling a method. *)
Definition perform (op : operation) : Client.Method Client.outcome :=
  match op with
  | GetDatabases => Client.getDatabases JSON_parse JSON_stringify fetch
  | GetDatabase id => getDatabase JSON_parse JSON_stringify fetch id
  | CreateDatabase data =>
      Client.createDatabase JSON_parse JSON_stringify fetch data
  | UpdateDatabase id data =>
      updateDatabase JSON_parse JSON_stringify fetch id data
  | DeleteDatabase id =>
      Client.deleteDatabase JSON_parse JSON_stringify fetch id
  | TriggerBackup id => triggerBackup JSON_parse JSON_stringify fetch id
  | GetBackups databaseId =>
      getBackups JSON_parse JSON_stringify fetch databaseId
  | GetBackup id => getBackup JSON_parse JSON_stringify fetch id
  | DownloadBackup id => downloadBackup JSON_parse JSON_stringify fetch id
  | DeleteBackup id => deleteBackup JSON_parse JSON_stringify fetch id
  | GetStorages => getStorages JSON_parse JSON_stringify fetch
  | GetStorage id => getStorage JSON_parse JSON_stringify fetch id
  | CreateStorage data => createStorage JSON_parse JSON_stringify fetch data
  | UpdateStorage id data =>
      updateStorage JSON_parse JSON_stringify fetch id data
  | DeleteStorage id => deleteStorage JSON_parse JSON_stringify fetch id
  | TestStorage id => testStorage JSON_parse JSON_stringify fetch id
  | GetNotifiers => getNotifiers JSON_parse JSON_stringify fetch
  | GetNotifier id => getNotifier JSON_parse JSON_stringify fetch id
  | CreateNotifier data =>
      createNotifier JSON_parse JSON_stringify fetch data
  | UpdateNotifier id data =>
      updateNotifier JSON_parse JSON_stringify fetch id data
  | DeleteNotifier id => deleteNotifier JSON_parse JSON_stringify fetch id
  | TestNotifier id => testNotifier JSON_parse JSON_stringify fetch id
  | GetWorkspaces => getWorkspaces JSON_parse JSON_stringify fetch
  | GetWorkspace id => getWorkspace JSON_parse JSON_stringify fetch id
  | GetHealthChecks databaseId =>
      getHealthChecks JSON_parse JSON_stringify fetch databaseId
  | GetLatestHealthCheck databaseId =>
      getLatestHealthCheck JSON_parse JSON_stringify fetch databaseId
  | GetStats => getStats JSON_parse JSON_stringify fetch
  end.

End Run.

End Operations.

(** * The tools built on the redactors (tools/storages.ts,
      tools/notifiers.ts) *)

Module Tools.

(** A value at run time; [None] is [undefined]. *)
Definition maybe : Type := option value.

Inductive nullish : Type := Undefined | Null.

(** The [TypeError]s the tool code can run into on a value that is not of
    the declared type. *)
Inductive typeError : Type :=
| CannotRead (receiver : nullish) (name : string)
| CannotConvert (receiver : nullish)
| NotAFunction (name : string).

(** An object literal as it is built: every member is there, a member may
    hold [undefined]. *)
Definition literal : Type := list (string * maybe).

(** What [JSON.stringify] sees of a literal: the members that hold
    [undefined] are left out. *)
Fixpoint defined (fields : literal) : obj :=
  match fields with
  | [] => []
  | (key, Some v) :: rest => (key, v) :: defined rest
  | (_, None) :: rest => defined rest
  end.

Definition jsonOf (fields : literal) : value := VObj (defined fields).

(** The result of a tool: the text of its one content item ([None] when
    [JSON.stringify] returned [undefined]) and the [isError] flag. What a
    handler writes with [console.error] goes to the standard error stream
    and is not part of the result. *)
Record toolResult : Type := {
  text : option string;
  isError : bool
}.

(** The one-character strings of a string, as [Object.entries] and the
    spread of a string primitive list them. *)
Fixpoint characters (s : string) : list value :=
  match s with
  | EmptyString => []
  | String c rest => VStr (String c EmptyString) :: characters rest
  end.

(** The own enumerable properties of a value that is not nullish. *)
Definition ownEntries (v : value) : obj :=
  match v with
  | VStr s => Obj.indexed 0 (characters s)
  | _ => Obj.entries v
  end.

(** [{...x}]: the own enumerable properties of [x] are defined one by one
    on a new object; [undefined] and [null] give none. *)
Definition spread (x : maybe) : obj :=
  match x with
  | None | Some VNull => []
  | Some v => fold_left (fun o '(key, w) => Obj.define o key w)
                (ownEntries v) []
  end.

Section Platform.

Variable JSON_parse : string -> option value.
(** [JSON.stringify(x)] *)
Variable JSON_stringify : value -> string.
(** [JSON.stringify(x, null, 2)] *)
Variable JSON_stringify_pretty : value -> string.
Variable fetch :
  string -> Client.RequestInit -> Client.rejection + Client.Response.
(** The message the engine gives a [TypeError]. *)
Variable TypeError_message : typeError -> string.

(** What runs inside a [try]: a value, or what is thrown to the [catch]. *)
Definition attempt (A : Type) : Type := Client.rejection + A.

Definition throwTypeError {A : Type} (e : typeError) : attempt A :=
  inl (Client.ErrorInstance (TypeError_message e)).

Definition andThen {A B : Type} (m : attempt A) (k : A -> attempt B)
  : attempt B :=
  match m with
  | inl thrown => inl thrown
  | inr a => k a
  end.

Notation "x <-- m ;; k" := (andThen m (fun x => k))
  (at level 61, m at next level, right associativity).

(** [await] on a client method. *)
Definition awaited (settled : Client.outcome) : attempt maybe :=
  match settled with
  | Client.Resolved data => inr data
  | Client.Threw _ message => inl (Client.ErrorInstance message)
  | Client.Passed reason => inl reason
  end.

(** [x.name], for the member names the tools read; none of them is
    inherited from a prototype. *)
Definition member (x : maybe) (name : string) : attempt maybe :=
  match x with
  | None => throwTypeError (CannotRead Undefined name)
  | Some VNull => throwTypeError (CannotRead Null name)
  | Some v => inr (Obj.get (ownEntries v) name)
  end.

(** [Object.entries(x)] *)
Definition objectEntries (x : maybe) : attempt obj :=
  match x with
  | None => throwTypeError (CannotConvert Undefined)
  | Some VNull => throwTypeError (CannotConvert Null)
  | Some v => inr (ownEntries v)
  end.

(** [JSON.stringify(x, null, 2)] on a value that may be [undefined]. *)
Definition pretty (x : maybe) : option string :=
  match x with
  | Some v => Some (JSON_stringify_pretty v)
  | None => None
  end.

(** [error instanceof Error ? error.message : fallback] *)
Definition messageOr (error : Client.rejection) (fallback : string)
  : string :=
  match error with
  | Client.ErrorInstance message => message
  | Client.NotAnError => fallback
  end.

(** [xs.map(f)] *)
Fixpoint mapItems {A : Type} (f : value -> attempt A) (items : list value)
  : attempt (list A) :=
  match items with
  | [] => inr []
  | x :: rest =>
      y <-- f x ;;
      ys <-- mapItems f rest ;;
      inr (y :: ys)
  end.

Definition arrayMap {A : Type} (xs : maybe) (f : value -> attempt A)
  : attempt (list A) :=
  match xs with
  | None => throwTypeError (CannotRead Undefined "map")
  | Some VNull => throwTypeError (CannotRead Null "map")
  | Some (VArr items) => mapItems f items
  | Some _ => throwTypeError (NotAFunction "map")
  end.

(** The projection of the two listings: [id], [name], [type], [enabled]. *)
Definition summary (item : value) : attempt literal :=
  id <-- member (Some item) "id" ;;
  name <-- member (Some item) "name" ;;
  type <-- member (Some item) "type" ;;
  enabled <-- member (Some item) "enabled" ;;
  inr [("id", id); ("name", name); ("type", type); ("enabled", enabled)].

(** ** tools/storages.ts *)

Definition storageConfig (config : maybe) : attempt obj :=
  entries <-- objectEntries config ;;
  inr (Storages.maskSensitiveConfig entries).

Definition maskStorage (storage : maybe) : attempt literal :=
  id <-- member storage "id" ;;
  name <-- member storage "name" ;;
  type <-- member storage "type" ;;
  enabled <-- member storage "enabled" ;;
  config <-- member storage "config" ;;
  masked <-- storageConfig config ;;
  createdAt <-- member storage "createdAt" ;;
  updatedAt <-- member storage "updatedAt" ;;
  inr [("id", id); ("name", name); ("type", type); ("enabled", enabled);
       ("config", Some (VObj masked));
       ("createdAt", createdAt); ("updatedAt", updatedAt)].

Definition maskStorages (storages : maybe) : attempt (list literal) :=
  arrayMap storages summary.

(** The [catch] of the storage tools. *)
Definition storageFailure (error : Client.rejection) : toolResult :=
  {| text :=
       Some (JSON_stringify
               (VObj [("error", VStr (messageOr error "Unknown error"))]));
     isError := false |}.

(** The body after the [await] of the tools that show one storage. *)
Definition storageDetail (settled : Client.outcome) : toolResult :=
  match (storage <-- awaited settled ;; maskStorage storage) with
  | inr masked => {| text := pretty (Some (jsonOf masked)); isError := false |}
  | inl error => storageFailure error
  end.

Notation "x <- m ;; k" := (Client.bind m (fun x => k))
  (at level 61, m at next level, right associativity).

Definition databasus_list_storages : Client.Method toolResult :=
  settled <- Operations.getStorages JSON_parse JSON_stringify fetch ;;
  Client.ret
    (match (storages <-- awaited settled ;; maskStorages storages) with
     | inr masked =>
         {| text := pretty (Some (VArr (map jsonOf masked)));
            isError := false |}
     | inl error => storageFailure error
     end).

Definition databasus_get_storage (id : string) : Client.Method toolResult :=
  settled <- Operations.getStorage JSON_parse JSON_stringify fetch id ;;
  Client.ret (storageDetail settled).

(** The arguments [name], [type], [config] make the payload. *)
Definition databasus_create_storage (name type : string) (config : obj)
  : Client.Method toolResult :=
  settled <- Operations.createStorage JSON_parse JSON_stringify fetch
               (VObj [("name", VStr name); ("type", VStr type);
                      ("config", VObj config)]) ;;
  Client.ret (storageDetail settled).

(** The optional arguments that are absent are [undefined] members of the
    payload. *)
Definition databasus_update_storage (id : string) (name : option string)
  (enabled : option bool) (config : option obj) : Client.Method toolResult :=
  settled <- Operations.updateStorage JSON_parse JSON_stringify fetch id
               (jsonOf [("name", option_map VStr name);
                        ("enabled", option_map VBool enabled);
                        ("config", option_map VObj config)]) ;;
  Client.ret (storageDetail settled).

Definition databasus_delete_storage (id : string) : Client.Method toolResult :=
  settled <- Operations.deleteStorage JSON_parse JSON_stringify fetch id ;;
  Client.ret
    (match awaited settled with
     | inr _ =>
         {| text := Some (JSON_stringify
                            (VObj [("success", VBool true);
                                   ("message",
                                    VStr ("Storage " ++ id
                                            ++ " deleted successfully"))]));
            isError := false |}
     | inl error => storageFailure error
     end).

Definition databasus_test_storage (id : string) : Client.Method toolResult :=
  settled <- Operations.testStorage JSON_parse JSON_stringify fetch id ;;
  Client.ret
    (match awaited settled with
     | inr result => {| text := pretty result; isError := false |}
     | inl error =>
         {| text := Some (JSON_stringify
                            (VObj [("success", VBool false);
                                   ("error",
                                    VStr (messageOr error "Unknown error"))]));
            isError := false |}
     end).

(** ** tools/notifiers.ts *)

Definition notifierConfig (config : maybe) : attempt obj :=
  entries <-- objectEntries config ;;
  inr (Notifiers.maskSensitiveConfig entries).

(** [{ ...notifier, config: maskedConfig }] after
    [maskSensitiveConfig(notifier.config)]. *)
Definition maskNotifier (notifier : maybe) : attempt obj :=
  config <-- member notifier "config" ;;
  maskedConfig <-- notifierConfig config ;;
  inr (Obj.define (spread notifier) "config" (VObj maskedConfig)).

(** The [catch] of the notifier tools. *)
Definition notifierFailure (error : Client.rejection) : toolResult :=
  {| text :=
       Some (JSON_stringify
               (VObj [("error", VStr (messageOr error "Unknown error"))]));
     isError := true |}.

Definition notifierDetail (settled : Client.outcome) : toolResult :=
  match (notifier <-- awaited settled ;; maskNotifier notifier) with
  | inr masked => {| text := pretty (Some (VObj masked)); isError := false |}
  | inl error => notifierFailure error
  end.

Definition databasus_list_notifiers : Client.Method toolResult :=
  settled <- Operations.getNotifiers JSON_parse JSON_stringify fetch ;;
  Client.ret
    (match (notifiers <-- awaited settled ;; arrayMap notifiers summary) with
     | inr result =>
         {| text := pretty (Some (VArr (map jsonOf result)));
            isError := false |}
     | inl error => notifierFailure error
     end).

Definition databasus_get_notifier (id : string) : Client.Method toolResult :=
  settled <- Operations.getNotifier JSON_parse JSON_stringify fetch id ;;
  Client.ret (notifierDetail settled).

Definition databasus_create_notifier (name type : string) (config : obj)
  : Client.Method toolResult :=
  settled <- Operations.createNotifier JSON_parse JSON_stringify fetch
               (VObj [("name", VStr name); ("type", VStr type);
                      ("config", VObj config)]) ;;
  Client.ret (notifierDetail settled).

Definition databasus_update_notifier (id : string) (name : option string)
  (enabled : option bool) (config : option obj) : Client.Method toolResult :=
  settled <- Operations.updateNotifier JSON_parse JSON_stringify fetch id
               (jsonOf [("name", option_map VStr name);
                        ("enabled", option_map VBool enabled);
                        ("config", option_map VObj config)]) ;;
  Client.ret (notifierDetail settled).

Definition databasus_delete_notifier (id : string)
  : Client.Method toolResult :=
  settled <- Operations.deleteNotifier JSON_parse JSON_stringify fetch id ;;
  Client.ret
    (match awaited settled with
     | inr _ =>
         {| text := Some (JSON_stringify
                            (VObj [("success", VBool true);
                                   ("message",
                                    VStr ("Notifier " ++ id
                                            ++ " deleted successfully"))]));
            isError := false |}
     | inl error => notifierFailure error
     end).

Definition databasus_test_notifier (id : string) : Client.Method toolResult :=
  settled <- Operations.testNotifier JSON_parse JSON_stringify fetch id ;;
  Client.ret
    (match awaited settled with
     | inr result => {| text := pretty result; isError := false |}
     | inl error =>
         {| text := Some (JSON_stringify
                            (VObj [("success", VBool false);
                                   ("error",
                                    VStr (messageOr error "Unknown error"))]));
            isError := true |}
     end).

End Platform.

End Tools.

(** * Backup statistics (tools/backups.ts) and health checks
      (tools/workspaces.ts) *)

Module Stats.

Section Platform.

Variable TypeError_message : Tools.typeError -> string.
(** [new Date(x).getTime()]; [None] is [NaN], the time of an invalid
    date. *)
Variable Date_time : Tools.maybe -> option Z.

Local Abbreviation attempt := (Tools.attempt).
Local Abbreviation member := (Tools.member TypeError_message).
Notation "x <-- m ;; k" := (Tools.andThen m (fun x => k))
  (at level 61, m at next level, right associativity).





(** [new Date(b.completedAt!) > new Date(latest.completedAt!)]: a comparison
    of the two times, false as soon as one of them is [NaN]. The items
    compared passed the filter, so reading their member cannot throw. *)
Definition completedLater (b latest : value) : bool :=
  match Date_time (Obj.get (Tools.ownEntries b) "completedAt"),
        Date_time (Obj.get (Tools.ownEntries latest) "completedAt") with
  | Some tb, Some tl => (tl <? tb)%Z
  | _, _ => false
  end.

(** [completedBackups.length > 0 ? completedBackups.reduce(...) : null] *)
Definition lastBackup (completedBackups : list value) : option value :=
  match completedBackups with
  | [] => None
  | first :: rest =>
      Some (fold_left
              (fun latest b => if completedLater b latest then b else latest)
              rest first)
  end.

End Platform.

End Stats.

Module Health.

(** [items.slice(0, end)], [end] being the integer part of the argument. *)
Definition sliceFromStart {A : Type} (finish : Z) (items : list A) : list A :=
  let len := Z.of_nat (length items) in
  let final :=
    if (finish <? 0)%Z then Z.max (len + finish) 0 else Z.min finish len in
  firstn (Z.to_nat final) items.

Section Platform.

Variable JSON_parse : string -> option value.
Variable JSON_stringify : value -> string.
Variable JSON_stringify_pretty : value -> string.
Variable fetch :
  string -> Client.RequestInit -> Client.rejection + Client.Response.
Variable TypeError_message : Tools.typeError -> string.

Local Abbreviation member := (Tools.member TypeError_message).
Notation "x <-- m ;; k" := (Tools.andThen m (fun x => k))
  (at level 61, m at next level, right associativity).
Notation "x <- m ;; k" := (Client.bind m (fun x => k))
  (at level 61, m at next level, right associativity).

(** The projection of one health check. *)
Definition healthView (hc : value) : Tools.attempt Tools.literal :=
  id <-- member (Some hc) "id" ;;
  status <-- member (Some hc) "status" ;;
  responseTimeMs <-- member (Some hc) "responseTimeMs" ;;
  checkedAt <-- member (Some hc) "checkedAt" ;;
  errorMessage <-- member (Some hc) "errorMessage" ;;
  inr [("id", id); ("status", status); ("responseTimeMs", responseTimeMs);
       ("checkedAt", checkedAt); ("errorMessage", errorMessage)].

(** [healthChecks.slice(0, limit).map(...)]: an array is sliced and mapped;
    a string can be sliced but the slice has no [map]; nothing else has a
    [slice]. *)
Definition recent (healthChecks : Tools.maybe) (limit : Z)
  : Tools.attempt (list Tools.literal) :=
  match healthChecks with
  | None => Tools.throwTypeError TypeError_message
              (Tools.CannotRead Tools.Undefined "slice")
  | Some VNull => Tools.throwTypeError TypeError_message
                    (Tools.CannotRead Tools.Null "slice")
  | Some (VArr items) =>
      Tools.mapItems healthView (sliceFromStart limit items)
  | Some (VStr _) => Tools.throwTypeError TypeError_message
                       (Tools.NotAFunction "map")
  | Some _ => Tools.throwTypeError TypeError_message
                (Tools.NotAFunction "slice")
  end.

(** [limit] is the integer part of the number the tool is called with, 10
    when the argument is absent. *)
Definition databasus_get_health_checks (databaseId : string)
  (limit : option Z) : Client.Method Tools.toolResult :=
  let limit := match limit with Some n => n | None => 10%Z end in
  settled <- Operations.getHealthChecks JSON_parse JSON_stringify fetch
               databaseId ;;
  Client.ret
    (match (healthChecks <-- Tools.awaited settled ;;
            recent healthChecks limit) with
     | inr result =>
         {| Tools.text :=
              Tools.pretty JSON_stringify_pretty
                (Some (VArr (map Tools.jsonOf result)));
            Tools.isError := false |}
     | inl error =>
         (* the [catch] has the form of the one of the notifier tools *)
         Tools.notifierFailure JSON_stringify error
     end).

End Platform.

End Health.

(** * Vocabulary of the statements *)

(** ** The redactors *)

(** The loop [for (const [key, v] of entries) masked[key] = f(key, v)]. *)
Definition fill {T : Type} (f : string -> T -> T) (entries acc : record T)
  : record T :=
  fold_left (fun masked '(key, v) => Obj.set masked key (f key v))
    entries acc.

Definition storageAssigned (key : string) (v : value) : value :=
  Storages.maskedValue key v (Storages.maskNested v).

Definition notProto {T : Type} (kv : string * T) : bool :=
  negb (fst kv =? "__proto__").

(** The keywords the specification lists for both redactors. *)
Definition specKeywords : list string :=
  ["secret"; "password"; "token"; "key"; "credential"; "url"].

(** The keywords of each redactor that a lower-cased key can contain. *)
Definition storageKeywords : list string :=
  ["password"; "secret"; "key"; "token"; "credential"].

Definition notifierKeywords : list string :=
  ["url"; "token"; "api_key"; "password"; "secret"].

(** [redact] masks every string entry whose lower-cased key contains one of
    [keywords]: reading the key from the result gives the marker. *)
Definition masksEvery (keywords : list string) (marker : string)
  (redact : obj -> obj) : Prop :=
  forall (config : obj) (key s : string),
    NoDup (Obj.keys config) ->
    In (key, VStr s) config ->
    matchesAny keywords (Str.toLowerCase key) = true ->
    Obj.get (redact config) key = Some (VStr marker).

(** Every object inside [v] has distinct keys. *)
Unset Elimination Schemes.
Inductive distinctKeys : value -> Prop :=
| distinct_null : distinctKeys VNull
| distinct_bool b : distinctKeys (VBool b)
| distinct_num n : distinctKeys (VNum n)
| distinct_str s : distinctKeys (VStr s)
| distinct_arr items :
    Forall distinctKeys items -> distinctKeys (VArr items)
| distinct_obj props :
    NoDup (Obj.keys props) ->
    Forall (fun kv => distinctKeys (snd kv)) props ->
    distinctKeys (VObj props).
Set Elimination Schemes.

(** Reading [v[k1][k2]...] along a path of keys. *)
Fixpoint getPath (v : value) (path : list string) : option value :=
  match path with
  | [] => Some v
  | key :: rest =>
      match Obj.get (Obj.entries v) key with
      | Some x => getPath x rest
      | None => None
      end
  end.

(** ** The client *)

(** A credential is configured when it is present and not the empty string
    (the client tests it for truthiness). *)
Definition configured (credential : option string) : option string :=
  match credential with
  | Some EmptyString | None => None
  | Some s => Some s
  end.

(** The field [name] of a parsed body, when the body is an object that has
    it and it is a string. *)
Definition stringField (body : value) (name : string) : option string :=
  match body with
  | VObj props =>
      match Obj.get props name with
      | Some (VStr s) => Some s
      | _ => None
      end
  | _ => None
  end.

(** How the [fetch] call of [request] settles. *)
Definition fetched (JSON_stringify : value -> string)
  (fetch : string -> Client.RequestInit -> Client.rejection + Client.Response)
  (method path : string) (body : option value) (this : Client.DatabasusClient)
  : Client.rejection + Client.Response :=
  let call :=
    fst (Client.fetchArguments JSON_stringify method path body this) in
  fetch (fst call) (snd call).

(** ** Stand-ins for the platform, for the examples *)

Definition quote : string := String "034"%char EmptyString.

(** The text [{"error": "Database not found"}]. *)
Definition errorBody : string :=
  "{" ++ quote ++ "error" ++ quote ++ ": "
      ++ quote ++ "Database not found" ++ quote ++ "}".

(** The text [{"message": "Access denied"}]. *)
Definition messageBody : string :=
  "{" ++ quote ++ "message" ++ quote ++ ": "
      ++ quote ++ "Access denied" ++ quote ++ "}".

(** [JSON.parse] on the bodies of the examples: the three JSON texts parse
    to their objects, the texts that are not JSON are rejected. *)
Definition exampleParse (text : string) : option value :=
  if text =? "{}" then Some (VObj [])
  else if text =? errorBody
       then Some (VObj [("error", VStr "Database not found")])
  else if text =? messageBody
       then Some (VObj [("message", VStr "Access denied")])
  else None.

Definition exampleStringify (v : value) : string := "{}".

(** A [fetch] that resolves with the given status and body text. *)
Definition respond (status : nat) (text : string)
  : string -> Client.RequestInit -> Client.rejection + Client.Response :=
  fun _ _ => inr {| Client.status := status; Client.text := inr text |}.

(** A [fetch] that rejects. *)
Definition failWith (reason : Client.rejection)
  : string -> Client.RequestInit -> Client.rejection + Client.Response :=
  fun _ _ => inl reason.

Definition exampleClient : Client.DatabasusClient :=
  Client.constructor
    {| Types.baseUrl := "https://backup.example.com/";
       Types.apiKey := Some "test-api-key";
       Types.bearerToken := None |}.

Fixpoint replicate (n : nat) (c : ascii) : string :=
  match n with
  | O => EmptyString
  | S n => String c (replicate n c)
  end.

(** ** Characters of keywords *)

(** An ASCII capital letter. *)
Definition isUpper (c : ascii) : bool :=
  let n := nat_of_ascii c in ((65 <=? n) && (n <=? 90))%nat.

Fixpoint hasUpper (s : string) : bool :=
  match s with
  | EmptyString => false
  | String c r => isUpper c || hasUpper r
  end.

(** ** The operations of the client *)

(** The method, the path and the payload an operation hands to [request]. *)
Definition callOf (op : Operations.operation)
  : string * string * option value :=
  match op with
  | Operations.GetDatabases => ("GET", "/api/databases", None)
  | Operations.GetDatabase id => ("GET", "/api/databases/" ++ id, None)
  | Operations.CreateDatabase data => ("POST", "/api/databases", Some data)
  | Operations.UpdateDatabase id data =>
      ("PUT", "/api/databases/" ++ id, Some data)
  | Operations.DeleteDatabase id => ("DELETE", "/api/databases/" ++ id, None)
  | Operations.TriggerBackup id =>
      ("POST", "/api/databases/" ++ id ++ "/backup", None)
  | Operations.GetBackups (Some (String _ _ as databaseId)) =>
      ("GET", "/api/backups?databaseId=" ++ databaseId, None)
  | Operations.GetBackups _ => ("GET", "/api/backups", None)
  | Operations.GetBackup id => ("GET", "/api/backups/" ++ id, None)
  | Operations.DownloadBackup id =>
      ("GET", "/api/backups/" ++ id ++ "/download", None)
  | Operations.DeleteBackup id => ("DELETE", "/api/backups/" ++ id, None)
  | Operations.GetStorages => ("GET", "/api/storages", None)
  | Operations.GetStorage id => ("GET", "/api/storages/" ++ id, None)
  | Operations.CreateStorage data => ("POST", "/api/storages", Some data)
  | Operations.UpdateStorage id data =>
      ("PUT", "/api/storages/" ++ id, Some data)
  | Operations.DeleteStorage id => ("DELETE", "/api/storages/" ++ id, None)
  | Operations.TestStorage id =>
      ("POST", "/api/storages/" ++ id ++ "/test", None)
  | Operations.GetNotifiers => ("GET", "/api/notifiers", None)
  | Operations.GetNotifier id => ("GET", "/api/notifiers/" ++ id, None)
  | Operations.CreateNotifier data => ("POST", "/api/notifiers", Some data)
  | Operations.UpdateNotifier id data =>
      ("PUT", "/api/notifiers/" ++ id, Some data)
  | Operations.DeleteNotifier id => ("DELETE", "/api/notifiers/" ++ id, None)
  | Operations.TestNotifier id =>
      ("POST", "/api/notifiers/" ++ id ++ "/test", None)
  | Operations.GetWorkspaces => ("GET", "/api/workspaces", None)
  | Operations.GetWorkspace id => ("GET", "/api/workspaces/" ++ id, None)
  | Operations.GetHealthChecks databaseId =>
      ("GET", "/api/databases/" ++ databaseId ++ "/health-checks", None)
  | Operations.GetLatestHealthCheck databaseId =>
      ("GET", "/api/databases/" ++ databaseId ++ "/health-checks/latest",
       None)
  | Operations.GetStats => ("GET", "/api/stats", None)
  end.

Definition methodOf (op : Operations.operation) : string :=
  fst (fst (callOf op)).

Definition pathOf (op : Operations.operation) : string :=
  snd (fst (callOf op)).

Definition payloadOf (op : Operations.operation) : option value :=
  snd (callOf op).

(** The operations of type [Promise<void>]. *)
Definition returnsNothing (op : Operations.operation) : bool :=
  match op with
  | Operations.DeleteDatabase _ | Operations.DeleteBackup _
  | Operations.DeleteStorage _ | Operations.DeleteNotifier _ => true
  | _ => false
  end.

(** The arguments of the [fetch] call of an operation. *)
Definition fetchCallOf (JSON_stringify : value -> string)
  (op : Operations.operation) (this : Client.DatabasusClient)
  : string * Client.RequestInit :=
  fst (Client.fetchArguments JSON_stringify
         (methodOf op) (pathOf op) (payloadOf op) this).

(** ** The tools *)

(** The members of the storage view. *)
Definition storageFields : list string :=
  ["id"; "name"; "type"; "enabled"; "config"; "createdAt"; "updatedAt"].

(** The members of an item of a listing. *)
Definition summaryFields : list string := ["id"; "name"; "type"; "enabled"].

(** The storage and notifier tools, by name and arguments. *)
Inductive toolCall : Type :=
| ListStorages
| GetStorageTool (id : string)
| CreateStorageTool (name type : string) (config : obj)
| UpdateStorageTool (id : string) (name : option string)
    (enabled : option bool) (config : option obj)
| DeleteStorageTool (id : string)
| TestStorageTool (id : string)
| ListNotifiers
| GetNotifierTool (id : string)
| CreateNotifierTool (name type : string) (config : obj)
| UpdateNotifierTool (id : string) (name : option string)
    (enabled : option bool) (config : option obj)
| DeleteNotifierTool (id : string)
| TestNotifierTool (id : string).

(** The client operation a tool awaits. *)
Definition operationOf (call : toolCall) : Operations.operation :=
  match call with
  | ListStorages => Operations.GetStorages
  | GetStorageTool id => Operations.GetStorage id
  | CreateStorageTool name type config =>
      Operations.CreateStorage
        (VObj [("name", VStr name); ("type", VStr type);
               ("config", VObj config)])
  | UpdateStorageTool id name enabled config =>
      Operations.UpdateStorage id
        (Tools.jsonOf [("name", option_map VStr name);
                       ("enabled", option_map VBool enabled);
                       ("config", option_map VObj config)])
  | DeleteStorageTool id => Operations.DeleteStorage id
  | TestStorageTool id => Operations.TestStorage id
  | ListNotifiers => Operations.GetNotifiers
  | GetNotifierTool id => Operations.GetNotifier id
  | CreateNotifierTool name type config =>
      Operations.CreateNotifier
        (VObj [("name", VStr name); ("type", VStr type);
               ("config", VObj config)])
  | UpdateNotifierTool id name enabled config =>
      Operations.UpdateNotifier id
        (Tools.jsonOf [("name", option_map VStr name);
                       ("enabled", option_map VBool enabled);
                       ("config", option_map VObj config)])
  | DeleteNotifierTool id => Operations.DeleteNotifier id
  | TestNotifierTool id => Operations.TestNotifier id
  end.

Definition isNotifierTool (call : toolCall) : bool :=
  match call with
  | ListNotifiers | GetNotifierTool _ | CreateNotifierTool _ _ _
  | UpdateNotifierTool _ _ _ _ | DeleteNotifierTool _ | TestNotifierTool _ =>
      true
  | _ => false
  end.

Definition isTestTool (call : toolCall) : bool :=
  match call with
  | TestStorageTool _ | TestNotifierTool _ => true
  | _ => false
  end.

(** Running the handler of a tool. *)
Definition runTool (JSON_parse : string -> option value)
  (JSON_stringify JSON_stringify_pretty : value -> string)
  (fetch : string -> Client.RequestInit -> Client.rejection + Client.Response)
  (TypeError_message : Tools.typeError -> string)
  (call : toolCall) : Client.Method Tools.toolResult :=
  match call with
  | ListStorages =>
      Tools.databasus_list_storages JSON_parse JSON_stringify
        JSON_stringify_pretty fetch TypeError_message
  | GetStorageTool id =>
      Tools.databasus_get_storage JSON_parse JSON_stringify
        JSON_stringify_pretty fetch TypeError_message id
  | CreateStorageTool name type config =>
      Tools.databasus_create_storage JSON_parse JSON_stringify
        JSON_stringify_pretty fetch TypeError_message name type config
  | UpdateStorageTool id name enabled config =>
      Tools.databasus_update_storage JSON_parse JSON_stringify
        JSON_stringify_pretty fetch TypeError_message id name enabled config
  | DeleteStorageTool id =>
      Tools.databasus_delete_storage JSON_parse JSON_stringify fetch id
  | TestStorageTool id =>
      Tools.databasus_test_storage JSON_parse JSON_stringify
        JSON_stringify_pretty fetch id
  | ListNotifiers =>
      Tools.databasus_list_notifiers JSON_parse JSON_stringify
        JSON_stringify_pretty fetch TypeError_message
  | GetNotifierTool id =>
      Tools.databasus_get_notifier JSON_parse JSON_stringify
        JSON_stringify_pretty fetch TypeError_message id
  | CreateNotifierTool name type config =>
      Tools.databasus_create_notifier JSON_parse JSON_stringify
        JSON_stringify_pretty fetch TypeError_message name type config
  | UpdateNotifierTool id name enabled config =>
      Tools.databasus_update_notifier JSON_parse JSON_stringify
        JSON_stringify_pretty fetch TypeError_message id name enabled config
  | DeleteNotifierTool id =>
      Tools.databasus_delete_notifier JSON_parse JSON_stringify fetch id
  | TestNotifierTool id =>
      Tools.databasus_test_notifier JSON_parse JSON_stringify
        JSON_stringify_pretty fetch id
  end.

(** Stand-ins for the examples. *)
Definition examplePretty (v : value) : string := "{ }".

Definition exampleTypeError (e : Tools.typeError) : string :=
  match e with
  | Tools.CannotRead Tools.Undefined name =>
      "Cannot read properties of undefined (reading '" ++ name ++ "')"
  | Tools.CannotRead Tools.Null name =>
      "Cannot read properties of null (reading '" ++ name ++ "')"
  | Tools.CannotConvert _ => "Cannot convert undefined or null to object"
  | Tools.NotAFunction name => name ++ " is not a function"
  end.

(** ** Statistics *)



(** The time of the [completedAt] member of a backup. *)
Definition completedTime (Date_time : Tools.maybe -> option Z) (b : value)
  : option Z :=
  Date_time (Obj.get (Tools.ownEntries b) "completedAt").

(** A stand-in for [Date] in the examples: a number is its own time,
    anything else is an invalid date. *)
Definition exampleTime (x : Tools.maybe) : option Z :=
  match x with
  | Some (VNum n) => Some n
  | _ => None
  end.

(** * Properties *)

(** ** Objects: reading, writing and filling an object in a loop *)

Section ObjFacts.

Context {T : Type}.
Implicit Types (o acc : record T) (k key : string) (v : T).

Lemma keys_app o1 o2 :
  Obj.keys (o1 ++ o2)%list = (Obj.keys o1 ++ Obj.keys o2)%list.
Proof. apply map_app. Qed.

Lemma define_fresh o key v :
  ~ In key (Obj.keys o) -> Obj.define o key v = (o ++ [(key, v)])%list.
Proof.
  induction o as [|[k w] rest IH]; simpl; intros Hfresh.
  - reflexivity.
  - destruct (String.eqb_spec k key) as [->|Hne].
    + exfalso. apply Hfresh. now left.
    + f_equal. apply IH. intros Hin. apply Hfresh. now right.
Qed.

Lemma define_keys_known o key v :
  In key (Obj.keys o) -> Obj.keys (Obj.define o key v) = Obj.keys o.
Proof.
  induction o as [|[k w] rest IH]; simpl; intros Hin.
  - contradiction.
  - destruct (String.eqb_spec k key) as [->|Hne]; simpl.
    + reflexivity.
    + f_equal. apply IH. destruct Hin as [Heq|Hin]; [contradiction|exact Hin].
Qed.

Lemma define_keys o key v :
  Obj.keys (Obj.define o key v) = Obj.keys o
  \/ (~ In key (Obj.keys o)
      /\ Obj.keys (Obj.define o key v) = (Obj.keys o ++ [key])%list).
Proof.
  destruct (in_dec string_dec key (Obj.keys o)) as [Hin|Hout].
  - left. now apply define_keys_known.
  - right. split; [exact Hout|].
    rewrite define_fresh by exact Hout. rewrite keys_app. reflexivity.
Qed.

Lemma define_entries o key v k w :
  In (k, w) (Obj.define o key v) -> In (k, w) o \/ (k = key /\ w = v).
Proof.
  induction o as [|[k0 w0] rest IH]; simpl.
  - intros [Heq|[]]. inversion Heq. now right.
  - destruct (String.eqb_spec k0 key) as [->|Hne]; simpl.
    + intros [Heq|Hin].
      * inversion Heq. now right.
      * left. now right.
    + intros [Heq|Hin].
      * left. now left.
      * destruct (IH Hin) as [H|H]; [left; now right|now right].
Qed.

Lemma NoDup_snoc (l : list string) k :
  NoDup l -> ~ In k l -> NoDup (l ++ [k])%list.
Proof.
  induction l as [|x l IH]; simpl; intros Hnd Hout.
  - constructor; [intros []|constructor].
  - inversion Hnd as [|? ? Hx Hl]; subst. constructor.
    + rewrite in_app_iff. intros [H|[H|[]]].
      * now apply Hx.
      * apply Hout. left. now symmetry.
    + apply IH; [exact Hl|]. intros H. apply Hout. now right.
Qed.

Lemma fill_cons f key v rest acc :
  fill f ((key, v) :: rest) acc = fill f rest (Obj.set acc key (f key v)).
Proof. reflexivity. Qed.

Lemma set_keys_NoDup o key v :
  NoDup (Obj.keys o) -> NoDup (Obj.keys (Obj.set o key v)).
Proof.
  intros Hnd. unfold Obj.set. destruct (key =? "__proto__"); [exact Hnd|].
  destruct (define_keys o key v) as [->|[Hout ->]];
    [exact Hnd|now apply NoDup_snoc].
Qed.

Lemma set_keys_no_proto o key v :
  ~ In "__proto__" (Obj.keys o) ->
  ~ In "__proto__" (Obj.keys (Obj.set o key v)).
Proof.
  intros Hno. unfold Obj.set.
  destruct (String.eqb_spec key "__proto__") as [->|Hne]; [exact Hno|].
  destruct (define_keys o key v) as [->|[_ ->]]; [exact Hno|].
  rewrite in_app_iff. intros [H|[H|[]]]; [now apply Hno|congruence].
Qed.

Lemma set_entries o key v k w :
  In (k, w) (Obj.set o key v) -> In (k, w) o \/ (k = key /\ w = v).
Proof.
  unfold Obj.set. destruct (key =? "__proto__").
  - now left.
  - apply define_entries.
Qed.

(** Whatever the entries, the object the loop builds has distinct keys,
    none of them [__proto__], and holds only values the loop assigned. *)
Lemma fill_keys_NoDup f entries acc :
  NoDup (Obj.keys acc) -> NoDup (Obj.keys (fill f entries acc)).
Proof.
  revert acc. induction entries as [|[key v] rest IH]; intros acc Hnd.
  - exact Hnd.
  - rewrite fill_cons. apply IH. now apply set_keys_NoDup.
Qed.

Lemma fill_keys_no_proto f entries acc :
  ~ In "__proto__" (Obj.keys acc) ->
  ~ In "__proto__" (Obj.keys (fill f entries acc)).
Proof.
  revert acc. induction entries as [|[key v] rest IH]; intros acc Hno.
  - exact Hno.
  - rewrite fill_cons. apply IH. now apply set_keys_no_proto.
Qed.

Lemma fill_entries f entries acc k w :
  In (k, w) (fill f entries acc) ->
  In (k, w) acc \/ exists v, In (k, v) entries /\ w = f k v.
Proof.
  revert acc. induction entries as [|[key v] rest IH]; intros acc Hin.
  - now left.
  - rewrite fill_cons in Hin. destruct (IH _ Hin) as [Hacc|[v' [Hv' ->]]].
    + destruct (set_entries _ _ _ _ _ Hacc) as [H|[-> ->]].
      * now left.
      * right. exists v. split; [now left|reflexivity].
    + right. exists v'. split; [now right|reflexivity].
Qed.

(** On entries with distinct keys, none of them [__proto__], the loop is a
    map over the entries, in their order. *)
Lemma fill_distinct f entries acc :
  NoDup (Obj.keys acc ++ Obj.keys entries)%list ->
  ~ In "__proto__" (Obj.keys entries) ->
  fill f entries acc
  = (acc ++ map (fun kv => (fst kv, f (fst kv) (snd kv))) entries)%list.
Proof.
  revert acc. induction entries as [|[key v] rest IH]; intros acc Hnd Hno.
  - simpl. now rewrite app_nil_r.
  - rewrite fill_cons. simpl in Hnd, Hno.
    assert (Hfresh : ~ In key (Obj.keys acc)).
    { intros Hin. apply NoDup_remove_2 in Hnd. apply Hnd.
      rewrite in_app_iff. now left. }
    unfold Obj.set.
    destruct (String.eqb_spec key "__proto__") as [->|Hne];
      [exfalso; apply Hno; now left|].
    rewrite define_fresh by exact Hfresh.
    rewrite IH.
    + rewrite <- app_assoc. reflexivity.
    + rewrite keys_app, <- app_assoc. exact Hnd.
    + intros Hin. apply Hno. now right.
Qed.

(** A [__proto__] entry is skipped wherever it stands. *)
Lemma fill_skips_proto f entries acc :
  fill f entries acc
  = fill f (filter (fun kv => negb (fst kv =? "__proto__")) entries) acc.
Proof.
  revert acc. induction entries as [|[key v] rest IH]; intros acc.
  - reflexivity.
  - rewrite fill_cons. cbn [filter fst]. unfold Obj.set.
    destruct (String.eqb_spec key "__proto__") as [->|Hne]; cbn [negb].
    + apply IH.
    + rewrite fill_cons, IH. unfold Obj.set.
      destruct (String.eqb_spec key "__proto__"); [contradiction|reflexivity].
Qed.

Lemma get_In o key v : Obj.get o key = Some v -> In (key, v) o.
Proof.
  induction o as [|[k w] rest IH]; simpl; [discriminate|].
  destruct (String.eqb_spec k key) as [->|Hne].
  - intros [= ->]. now left.
  - intros H. right. now apply IH.
Qed.

Lemma In_get o key v :
  NoDup (Obj.keys o) -> In (key, v) o -> Obj.get o key = Some v.
Proof.
  induction o as [|[k w] rest IH]; simpl; intros Hnd Hin; [contradiction|].
  inversion Hnd as [|? ? Hk Hrest]; subst.
  destruct Hin as [[= -> ->]|Hin].
  - now rewrite String.eqb_refl.
  - destruct (String.eqb_spec k key) as [->|Hne].
    + exfalso. apply Hk. change key with (fst (key, v)). now apply in_map.
    + now apply IH.
Qed.

End ObjFacts.

(** Running the loop over its own result changes nothing, as soon as the
    assigned value is stable on the entries. *)
Lemma fill_stable {T : Type} (f : string -> T -> T) (entries : record T) :
  (forall k v, In (k, v) entries -> f k (f k v) = f k v) ->
  fill f (fill f entries []) [] = fill f entries [].
Proof.
  intros Hstable.
  rewrite (fill_distinct f (fill f entries []) []).
  - simpl. rewrite <- (map_id (fill f entries [])) at 2.
    apply map_ext_in. intros [k w] Hin. simpl.
    destruct (fill_entries _ _ _ _ _ Hin) as [[]|[v [Hv ->]]].
    f_equal. now apply Hstable.
  - simpl. apply fill_keys_NoDup. constructor.
  - apply fill_keys_no_proto. intros [].
Qed.

(** ** The storage redactor *)

Lemma storage_mask_is_fill config :
  Storages.maskSensitiveConfig config = fill storageAssigned config [].
Proof. reflexivity. Qed.

(** The recursive call on an object is the function itself. *)
Lemma maskNested_object props :
  Storages.maskNested (VObj props) = VObj (Storages.maskSensitiveConfig props).
Proof.
  rewrite storage_mask_is_fill. simpl. f_equal.
  generalize (@nil (string * value)) as masked.
  induction props as [|[key x] rest IH]; intros masked.
  - reflexivity.
  - rewrite fill_cons. apply IH.
Qed.

(** The recursive call on an array is the function on the array's index
    entries: the array comes back as an object. *)
Lemma maskNested_array items :
  Storages.maskNested (VArr items)
  = VObj (Storages.maskSensitiveConfig (Obj.indexed 0 items)).
Proof.
  rewrite storage_mask_is_fill. simpl. f_equal.
  generalize (@nil (string * value)) as masked. generalize 0 as i.
  induction items as [|x rest IH]; intros i masked.
  - reflexivity.
  - simpl Obj.indexed. rewrite fill_cons. apply IH.
Qed.

Lemma maskNested_entries v :
  isObjectLike v = true ->
  Storages.maskNested v = VObj (Storages.maskSensitiveConfig (Obj.entries v)).
Proof.
  destruct v; try discriminate; intros _.
  - apply maskNested_array.
  - apply maskNested_object.
Qed.


Lemma indexed_items i items k v :
  In (k, v) (Obj.indexed i items) -> In v items.
Proof.
  revert i. induction items as [|x rest IH]; simpl; intros i.
  - intros [].
  - intros [[= _ ->]|Hin]; [now left|right; now apply (IH (S i))].
Qed.

Lemma storageAssigned_stable key v :
  Storages.maskNested (Storages.maskNested v) = Storages.maskNested v ->
  storageAssigned key (storageAssigned key v) = storageAssigned key v.
Proof.
  intros IH. unfold storageAssigned, Storages.maskedValue.
  destruct (isObjectLike v) eqn:Ho.
  - assert (Hstr : isString v = false) by (destruct v; easy).
    rewrite Hstr, andb_false_r.
    rewrite (maskNested_entries v Ho) in IH |- *.
    cbn [isString isObjectLike]. rewrite andb_false_r. exact IH.
  - destruct (Storages.isSensitive key && isString v) eqn:Hmask.
    + apply andb_prop in Hmask as [-> _]. reflexivity.
    + now rewrite Hmask, Ho.
Qed.

Lemma maskNested_stable v :
  Storages.maskNested (Storages.maskNested v) = Storages.maskNested v.
Proof.
  induction v as [| | | |items IH|props IH] using value_ind;
    try reflexivity.
  - rewrite maskNested_array, maskNested_object. f_equal.
    rewrite !storage_mask_is_fill. apply fill_stable.
    intros k v Hin. apply storageAssigned_stable.
    rewrite Forall_forall in IH. apply IH.
    eapply indexed_items, Hin.
  - rewrite !maskNested_object. f_equal.
    rewrite !storage_mask_is_fill. apply fill_stable.
    intros k v Hin. apply storageAssigned_stable.
    rewrite Forall_forall in IH. apply (IH (k, v) Hin).
Qed.

Lemma storage_mask_stable config :
  Storages.maskSensitiveConfig (Storages.maskSensitiveConfig config)
  = Storages.maskSensitiveConfig config.
Proof.
  rewrite !storage_mask_is_fill. apply fill_stable.
  intros k v _. apply storageAssigned_stable, maskNested_stable.
Qed.

(** ** The notifier redactor *)

Lemma notifier_mask_is_fill config :
  Notifiers.maskSensitiveConfig config = fill Notifiers.maskedValue config [].
Proof. reflexivity. Qed.

Lemma notifier_maskedValue_stable key v :
  Notifiers.maskedValue key (Notifiers.maskedValue key v)
  = Notifiers.maskedValue key v.
Proof.
  unfold Notifiers.maskedValue.
  destruct (Notifiers.isSensitive key) eqn:Hs, v; simpl; rewrite ?Hs;
    reflexivity.
Qed.

Lemma notifier_mask_stable config :
  Notifiers.maskSensitiveConfig (Notifiers.maskSensitiveConfig config)
  = Notifiers.maskSensitiveConfig config.
Proof.
  rewrite !notifier_mask_is_fill. apply fill_stable.
  intros k v _. apply notifier_maskedValue_stable.
Qed.

(** ** What the loop does to an object read with [Object.entries] *)

Section FillOnObjects.

Context {T : Type}.
Implicit Types (o entries : record T).

Lemma keys_filter_In (p : string * T -> bool) o k :
  In k (Obj.keys (filter p o)) -> In k (Obj.keys o).
Proof.
  unfold Obj.keys. rewrite !in_map_iff.
  intros [kv [Hk Hin]]. exists kv. split; [exact Hk|].
  now apply filter_In in Hin.
Qed.

Lemma keys_filter_NoDup (p : string * T -> bool) o :
  NoDup (Obj.keys o) -> NoDup (Obj.keys (filter p o)).
Proof.
  induction o as [|kv rest IH]; simpl; intros Hnd; [constructor|].
  inversion Hnd as [|? ? Hout Hrest]; subst.
  destruct (p kv); simpl; [constructor|]; auto.
  intros Hin. apply Hout. eapply keys_filter_In, Hin.
Qed.

Lemma keys_filter_no_proto o :
  ~ In "__proto__" (Obj.keys (filter notProto o)).
Proof.
  unfold Obj.keys. rewrite in_map_iff. intros [[k v] [Hk Hin]].
  apply filter_In in Hin as [_ Hp]. simpl in Hk. subst k.
  discriminate Hp.
Qed.

(** An object has distinct keys; the loop therefore yields, in the order
    of the entries, one assigned value per key other than [__proto__]. *)
Lemma fill_object f entries :
  NoDup (Obj.keys entries) ->
  fill f entries []
  = map (fun kv => (fst kv, f (fst kv) (snd kv))) (filter notProto entries).
Proof.
  intros Hnd. rewrite fill_skips_proto.
  rewrite fill_distinct; [reflexivity| |apply keys_filter_no_proto].
  simpl. now apply keys_filter_NoDup.
Qed.

Lemma fill_object_keys f entries :
  NoDup (Obj.keys entries) ->
  Obj.keys (fill f entries []) = Obj.keys (filter notProto entries).
Proof.
  intros Hnd. rewrite fill_object by exact Hnd.
  unfold Obj.keys. rewrite map_map. reflexivity.
Qed.

Lemma fill_object_get f entries key v :
  NoDup (Obj.keys entries) ->
  In (key, v) entries ->
  key <> "__proto__" ->
  Obj.get (fill f entries []) key = Some (f key v).
Proof.
  intros Hnd Hin Hkey. apply In_get.
  - apply fill_keys_NoDup. constructor.
  - rewrite fill_object by exact Hnd.
    apply in_map_iff. exists (key, v). split; [reflexivity|].
    apply filter_In. split; [exact Hin|].
    unfold notProto. simpl. now destruct (String.eqb_spec key "__proto__").
Qed.

Lemma filter_notProto_id entries :
  ~ In "__proto__" (Obj.keys entries) -> filter notProto entries = entries.
Proof.
  induction entries as [|[k v] rest IH]; simpl; intros Hno; [reflexivity|].
  unfold notProto at 1. simpl.
  destruct (String.eqb_spec k "__proto__") as [->|_]; simpl.
  - exfalso. apply Hno. now left.
  - f_equal. apply IH. intros Hin. apply Hno. now right.
Qed.

End FillOnObjects.

(** ** Sensitive keys *)

Lemma matchesAny_incl (some more : list string) (lowerKey : string) :
  incl some more ->
  matchesAny some lowerKey = true -> matchesAny more lowerKey = true.
Proof.
  unfold matchesAny. intros Hincl. rewrite !existsb_exists.
  intros [k [Hin Hk]]. exists k. split; [now apply Hincl|exact Hk].
Qed.

Lemma storage_sensitive_not_proto key :
  Storages.isSensitive key = true -> key <> "__proto__".
Proof. intros Hs ->. vm_compute in Hs. discriminate. Qed.

Lemma notifier_sensitive_not_proto key :
  Notifiers.isSensitive key = true -> key <> "__proto__".
Proof. intros Hs ->. vm_compute in Hs. discriminate. Qed.

Lemma storage_masks_sensitive config key s :
  NoDup (Obj.keys config) ->
  In (key, VStr s) config ->
  Storages.isSensitive key = true ->
  Obj.get (Storages.maskSensitiveConfig config) key
  = Some (VStr Storages.marker).
Proof.
  intros Hnd Hin Hs. rewrite storage_mask_is_fill.
  rewrite (fill_object_get _ _ key (VStr s)); auto.
  - unfold storageAssigned, Storages.maskedValue. now rewrite Hs.
  - now apply storage_sensitive_not_proto.
Qed.

Lemma notifier_masks_sensitive config key s :
  NoDup (Obj.keys config) ->
  In (key, VStr s) config ->
  Notifiers.isSensitive key = true ->
  Obj.get (Notifiers.maskSensitiveConfig config) key
  = Some (VStr Notifiers.marker).
Proof.
  intros Hnd Hin Hs. rewrite notifier_mask_is_fill.
  rewrite (fill_object_get _ _ key (VStr s)); auto.
  - unfold Notifiers.maskedValue. now rewrite Hs.
  - now apply notifier_sensitive_not_proto.
Qed.

(** ** Index keys of arrays *)

Lemma ofNat_numeral n :
  NilEmpty.uint_of_string (Str.ofNat n) = Some (Nat.to_uint n).
Proof. apply NilEmpty.usu. Qed.

Lemma ofNat_inj n m : Str.ofNat n = Str.ofNat m -> n = m.
Proof.
  intros Heq. apply (f_equal NilEmpty.uint_of_string) in Heq.
  rewrite !ofNat_numeral in Heq. injection Heq as Heq.
  now apply Unsigned.to_uint_inj.
Qed.

Lemma indexed_keys i items :
  Obj.keys (Obj.indexed i items) = map Str.ofNat (seq i (length items)).
Proof.
  revert i. induction items as [|x rest IH]; intros i; simpl.
  - reflexivity.
  - f_equal. apply IH.
Qed.

Lemma indexed_keys_NoDup i items : NoDup (Obj.keys (Obj.indexed i items)).
Proof.
  rewrite indexed_keys. apply Injective_map_NoDup.
  - intros n m. apply ofNat_inj.
  - apply seq_NoDup.
Qed.

Lemma indexed_get_not_numeral i items name :
  NilEmpty.uint_of_string name = None ->
  Obj.get (Obj.indexed i items) name = None.
Proof.
  intros Hname. revert i. induction items as [|x rest IH]; intros i; simpl.
  - reflexivity.
  - destruct (String.eqb_spec (Str.ofNat i) name) as [Heq|_]; [|apply IH].
    rewrite <- Heq, ofNat_numeral in Hname. discriminate.
Qed.

Lemma indexed_keys_no_proto i items :
  ~ In "__proto__" (Obj.keys (Obj.indexed i items)).
Proof.
  rewrite indexed_keys, in_map_iff. intros [n [Hn _]].
  apply (f_equal NilEmpty.uint_of_string) in Hn.
  rewrite ofNat_numeral in Hn. discriminate.
Qed.

(** ** Frame: what the redactors leave alone *)

(** On an object without a [__proto__] key the storage redactor keeps the
    keys in their order, and keeps the value of every entry that is neither
    masked nor an object or array. *)
Lemma storage_frame config :
  NoDup (Obj.keys config) ->
  ~ In "__proto__" (Obj.keys config) ->
  Obj.keys (Storages.maskSensitiveConfig config) = Obj.keys config
  /\ forall key v,
      In (key, v) config ->
      Storages.isSensitive key && isString v = false ->
      isObjectLike v = false ->
      Obj.get (Storages.maskSensitiveConfig config) key = Some v.
Proof.
  intros Hnd Hno. rewrite storage_mask_is_fill. split.
  - rewrite fill_object_keys by exact Hnd. now rewrite filter_notProto_id.
  - intros key v Hin Hmask Hprim.
    rewrite (fill_object_get _ _ key v Hnd Hin).
    + unfold storageAssigned, Storages.maskedValue. now rewrite Hmask, Hprim.
    + intros ->. apply Hno. change "__proto__" with (fst ("__proto__", v)).
      now apply in_map.
Qed.

(** The notifier redactor keeps, on such an object, the keys in their order
    and every value it does not mask, nested objects included. *)
Lemma notifier_frame config :
  NoDup (Obj.keys config) ->
  ~ In "__proto__" (Obj.keys config) ->
  Obj.keys (Notifiers.maskSensitiveConfig config) = Obj.keys config
  /\ forall key v,
      In (key, v) config ->
      Notifiers.isSensitive key && isString v = false ->
      Obj.get (Notifiers.maskSensitiveConfig config) key = Some v.
Proof.
  intros Hnd Hno. rewrite notifier_mask_is_fill. split.
  - rewrite fill_object_keys by exact Hnd. now rewrite filter_notProto_id.
  - intros key v Hin Hmask.
    rewrite (fill_object_get _ _ key v Hnd Hin).
    + unfold Notifiers.maskedValue. now rewrite Hmask.
    + intros ->. apply Hno. change "__proto__" with (fst ("__proto__", v)).
      now apply in_map.
Qed.

(** Whatever the object, a [__proto__] entry never reaches the result. *)
Lemma storage_result_has_no_proto config :
  ~ In "__proto__" (Obj.keys (Storages.maskSensitiveConfig config)).
Proof. rewrite storage_mask_is_fill. apply fill_keys_no_proto. intros []. Qed.

Lemma notifier_result_has_no_proto config :
  ~ In "__proto__" (Obj.keys (Notifiers.maskSensitiveConfig config)).
Proof. rewrite notifier_mask_is_fill. apply fill_keys_no_proto. intros []. Qed.

(** ** Depth: the storage redactor reaches nested strings *)

Lemma distinctKeys_entries v :
  distinctKeys v ->
  NoDup (Obj.keys (Obj.entries v))
  /\ forall k x, In (k, x) (Obj.entries v) -> distinctKeys x.
Proof.
  intros Hv. inversion Hv as [| | | |items Hitems|props Hnd Hprops]; subst;
    simpl; try (split; [constructor|intros k x []]).
  - split; [apply indexed_keys_NoDup|].
    intros k x Hin. rewrite Forall_forall in Hitems. apply Hitems.
    eapply indexed_items, Hin.
  - split; [exact Hnd|].
    intros k x Hin. rewrite Forall_forall in Hprops. apply (Hprops (k, x) Hin).
Qed.

Lemma distinctKeys_object props :
  NoDup (Obj.keys props) ->
  (forall k x, In (k, x) props -> distinctKeys x) ->
  distinctKeys (VObj props).
Proof.
  intros Hnd Hall. constructor; [exact Hnd|].
  apply Forall_forall. intros [k x] Hin. apply (Hall k x Hin).
Qed.

Lemma getPath_primitive v key rest :
  isObjectLike v = false -> getPath v (key :: rest) = None.
Proof. destruct v; try discriminate; reflexivity. Qed.

Lemma getPath_entries v key rest :
  getPath (VObj (Obj.entries v)) (key :: rest) = getPath v (key :: rest).
Proof. reflexivity. Qed.

(** One step down: under a key other than [__proto__] that holds an object
    or array [x], the result holds the redacted [x]. *)
Lemma storage_descend (config : obj) (k : string) (x : value) :
  distinctKeys (VObj config) ->
  k <> "__proto__" ->
  Obj.get config k = Some x ->
  isObjectLike x = true ->
  distinctKeys (VObj (Obj.entries x))
  /\ Obj.get (Storages.maskSensitiveConfig config) k
     = Some (VObj (Storages.maskSensitiveConfig (Obj.entries x))).
Proof.
  intros Hd Hk Hx Hobj. apply get_In in Hx.
  apply distinctKeys_entries in Hd as [Hnd Hsub]. simpl in Hnd, Hsub.
  split.
  - destruct (distinctKeys_entries x (Hsub k x Hx)) as [Hnd' Hsub'].
    now apply distinctKeys_object.
  - rewrite storage_mask_is_fill, (fill_object_get _ _ k x Hnd Hx Hk).
    unfold storageAssigned, Storages.maskedValue.
    replace (isString x) with false by (destruct x; easy).
    now rewrite andb_false_r, Hobj, (maskNested_entries x Hobj).
Qed.

(** At the end of a path without [__proto__], a value that is no object or
    array is masked if it is a string under a sensitive key and is kept
    otherwise. *)
Lemma storage_leaf_at_depth path :
  forall (config : obj) (key : string) (v : value),
    distinctKeys (VObj config) ->
    ~ In "__proto__" (path ++ [key])%list ->
    isObjectLike v = false ->
    getPath (VObj config) (path ++ [key])%list = Some v ->
    getPath (VObj (Storages.maskSensitiveConfig config)) (path ++ [key])%list
    = Some (if Storages.isSensitive key && isString v
            then VStr Storages.marker else v).
Proof.
  induction path as [|k rest IH]; intros config key v Hd Hno Hleaf Hget.
  - simpl in *. destruct (Obj.get config key) as [x|] eqn:Hx; [|discriminate].
    injection Hget as ->. apply get_In in Hx.
    apply distinctKeys_entries in Hd as [Hnd _].
    rewrite storage_mask_is_fill, (fill_object_get _ _ key v Hnd Hx).
    + unfold storageAssigned, Storages.maskedValue. now rewrite Hleaf.
    + intros ->. apply Hno. now left.
  - change ((k :: rest) ++ [key])%list with (k :: (rest ++ [key]))%list in *.
    cbn [getPath Obj.entries] in *.
    destruct (Obj.get config k) as [x|] eqn:Hx; [|discriminate].
    assert (Hobj : isObjectLike x = true).
    { destruct (isObjectLike x) eqn:Ho; [reflexivity|].
      destruct (rest ++ [key])%list eqn:Hp;
        [now destruct rest|now rewrite getPath_primitive in Hget]. }
    assert (Hk : k <> "__proto__") by (intros ->; apply Hno; now left).
    destruct (storage_descend config k x Hd Hk Hx Hobj) as [Hdx ->].
    apply IH; [exact Hdx| |exact Hleaf|].
    + intros Hin. apply Hno. now right.
    + destruct (rest ++ [key])%list eqn:Hp; [now destruct rest|exact Hget].
Qed.

(** At the end of a path without [__proto__], an object or array [x] has
    become the redacted [x], with the keys of [x] other than [__proto__]. *)
Lemma storage_object_at_depth path :
  forall (config : obj) (x : value),
    distinctKeys (VObj config) ->
    ~ In "__proto__" path ->
    isObjectLike x = true ->
    getPath (VObj config) path = Some x ->
    getPath (VObj (Storages.maskSensitiveConfig config)) path
    = Some (VObj (Storages.maskSensitiveConfig (Obj.entries x)))
    /\ Obj.keys (Storages.maskSensitiveConfig (Obj.entries x))
       = Obj.keys (filter notProto (Obj.entries x)).
Proof.
  induction path as [|k rest IH]; intros config x Hd Hno Hobj Hget.
  - simpl in Hget. injection Hget as <-. simpl. split; [reflexivity|].
    apply distinctKeys_entries in Hd as [Hnd _].
    rewrite storage_mask_is_fill. now apply fill_object_keys.
  - cbn [getPath Obj.entries] in *.
    destruct (Obj.get config k) as [y|] eqn:Hy; [|discriminate].
    assert (Hy' : isObjectLike y = true).
    { destruct (isObjectLike y) eqn:Ho; [reflexivity|].
      destruct rest as [|k' rest].
      - simpl in Hget. injection Hget as ->. congruence.
      - now rewrite getPath_primitive in Hget. }
    assert (Hk : k <> "__proto__") by (intros ->; apply Hno; now left).
    destruct (storage_descend config k y Hd Hk Hy Hy') as [Hdy ->].
    destruct rest as [|k' rest].
    + simpl in Hget. injection Hget as ->. simpl. split; [reflexivity|].
      apply distinctKeys_entries in Hdy as [Hnd _].
      rewrite storage_mask_is_fill. now apply fill_object_keys.
    + apply IH; [exact Hdy| |exact Hobj|exact Hget].
      intros Hin. apply Hno. now right.
Qed.

(** In particular a string under a sensitive key is masked at any depth. *)
Lemma storage_masks_at_depth (path : list string) (config : obj)
  (key s : string) :
  distinctKeys (VObj config) ->
  ~ In "__proto__" path ->
  Storages.isSensitive key = true ->
  getPath (VObj config) (path ++ [key])%list = Some (VStr s) ->
  getPath (VObj (Storages.maskSensitiveConfig config)) (path ++ [key])%list
  = Some (VStr Storages.marker).
Proof.
  intros Hd Hno Hs Hget.
  rewrite (storage_leaf_at_depth path config key (VStr s)); auto.
  - simpl. now rewrite Hs.
  - rewrite in_app_iff. intros [Hin|[Hkey|[]]]; [now apply Hno|].
    now apply (storage_sensitive_not_proto key).
Qed.

(** The scenario of the specification for the storage redactor. *)
Example storage_nested_scenario :
  Storages.maskSensitiveConfig
    [("connection",
      VObj [("host", VStr "s3.amazonaws.com"); ("secret", VStr "x");
            ("nested", VObj [("apiKey", VStr "y")])]);
     ("regular", VStr "visible")]
  = [("connection",
      VObj [("host", VStr "s3.amazonaws.com"); ("secret", VStr "***");
            ("nested", VObj [("apiKey", VStr "***")])]);
     ("regular", VStr "visible")].
Proof. reflexivity. Qed.

(** An array is an object to the storage redactor: it is walked by index and
    comes back as an object keyed by the indices. *)
Example storage_array_scenario :
  Storages.maskSensitiveConfig
    [("endpoints", VArr [VStr "a"; VObj [("password", VStr "p")]])]
  = [("endpoints",
      VObj [("0", VStr "a"); ("1", VObj [("password", VStr "***")])])].
Proof. reflexivity. Qed.

(** The camel-case entries of the keyword lists are compared with a
    lower-cased key and never match; [apiKey] is covered by [key] in the
    storage list and by nothing in the notifier list. *)
Example camel_case_keywords :
  Storages.isSensitive "apiKey" = true
  /\ Notifiers.isSensitive "apiKey" = false
  /\ Notifiers.isSensitive "api_key" = true
  /\ Notifiers.isSensitive "webhookUrl" = true.
Proof. repeat split; reflexivity. Qed.

(** ** Claims about the redactors *)

(** C1: the notifier redactor has no recursive call. A nested map is
    assigned as it is, so a token one level down comes back in clear, where
    the storage redactor masks it. *)
Theorem C1_notifier_redactor_is_shallow :
  Notifiers.maskSensitiveConfig
    [("name", VStr "ops"); ("auth", VObj [("token", VStr "xoxb-1")])]
  = [("name", VStr "ops"); ("auth", VObj [("token", VStr "xoxb-1")])]
  /\ Storages.maskSensitiveConfig
       [("name", VStr "ops"); ("auth", VObj [("token", VStr "xoxb-1")])]
     = [("name", VStr "ops"); ("auth", VObj [("token", VStr "***")])].
Proof. split; reflexivity. Qed.

(** C2, as the specification states it, fails for both redactors: the
    notifier redactor has no keyword [key] (nor [credential]), the storage
    redactor has no keyword [url]. *)
Lemma C2_spec_keywords_not_all_masked :
  ~ masksEvery specKeywords Notifiers.marker Notifiers.maskSensitiveConfig
  /\ ~ masksEvery specKeywords Storages.marker Storages.maskSensitiveConfig.
Proof.
  split; intros Hall.
  - specialize (Hall [("my_access_key", VStr "AKIA")] "my_access_key" "AKIA").
    vm_compute in Hall.
    assert (H : Some (VStr "AKIA") = Some (VStr "***REDACTED***")).
    { apply Hall; [repeat constructor; intros []|now left|reflexivity]. }
    discriminate H.
  - specialize (Hall [("url", VStr "https://s3")] "url" "https://s3").
    vm_compute in Hall.
    assert (H : Some (VStr "https://s3") = Some (VStr "***")).
    { apply Hall; [repeat constructor; intros []|now left|reflexivity]. }
    discriminate H.
Qed.

(** C2, amended: each redactor masks the string entries whose lower-cased
    key contains one of its own keywords: [password], [secret], [key],
    [token] or [credential] for the storage redactor (marker [***]);
    [url], [token], [api_key], [password] or [secret] for the notifier
    redactor (marker [***REDACTED***]). The key [secretToken] is masked by
    both, the key [my_access_key] by the storage redactor. *)
Theorem C2_own_keywords_masked :
  masksEvery storageKeywords Storages.marker Storages.maskSensitiveConfig
  /\ masksEvery notifierKeywords Notifiers.marker
       Notifiers.maskSensitiveConfig
  /\ Storages.isSensitive "secretToken" = true
  /\ Notifiers.isSensitive "secretToken" = true
  /\ Storages.isSensitive "my_access_key" = true.
Proof.
  split; [|split; [|repeat split]].
  - intros config key s Hnd Hin Hkey.
    apply (storage_masks_sensitive config key s Hnd Hin).
    revert Hkey. apply matchesAny_incl.
    intros k Hk. simpl in Hk. unfold Storages.SENSITIVE_KEYS.
    repeat (destruct Hk as [<-|Hk]; [simpl; tauto|]). destruct Hk.
  - intros config key s Hnd Hin Hkey.
    apply (notifier_masks_sensitive config key s Hnd Hin).
    revert Hkey. apply matchesAny_incl.
    intros k Hk. simpl in Hk. unfold Notifiers.sensitiveKeys.
    repeat (destruct Hk as [<-|Hk]; [simpl; tauto|]). destruct Hk.
Qed.

Lemma C2_own_keywords_masked_witness :
  Obj.get
    (Storages.maskSensitiveConfig
       [("host", VStr "s3.amazonaws.com"); ("my_access_key", VStr "AKIA")])
    "my_access_key" = Some (VStr "***")
  /\ Obj.get
       (Notifiers.maskSensitiveConfig
          [("channel", VStr "#ops"); ("webhook_url", VStr "https://hooks")])
       "webhook_url" = Some (VStr "***REDACTED***").
Proof.
  split.
  - apply (proj1 C2_own_keywords_masked _ "my_access_key" "AKIA").
    + repeat constructor; simpl; intuition discriminate.
    + right. now left.
    + reflexivity.
  - apply (proj1 (proj2 C2_own_keywords_masked) _
             "webhook_url" "https://hooks").
    + repeat constructor; simpl; intuition discriminate.
    + right. now left.
    + reflexivity.
Defined.

(** C9: both redactors are functions of their argument alone, and applying
    either to its own result gives that result again; under a sensitive key
    the marker is a string and so is masked to itself. *)
Theorem C9_redactors_idempotent :
  (forall config : obj,
      Storages.maskSensitiveConfig (Storages.maskSensitiveConfig config)
      = Storages.maskSensitiveConfig config)
  /\ (forall config : obj,
         Notifiers.maskSensitiveConfig (Notifiers.maskSensitiveConfig config)
         = Notifiers.maskSensitiveConfig config)
  /\ (forall (key : string) (nested : value),
         Storages.maskedValue key (VStr Storages.marker) nested
         = VStr Storages.marker)
  /\ (forall key : string,
         Notifiers.maskedValue key (VStr Notifiers.marker)
         = VStr Notifiers.marker).
Proof.
  split; [|split; [|split]].
  - apply storage_mask_stable.
  - apply notifier_mask_stable.
  - intros key nested. unfold Storages.maskedValue.
    now destruct (Storages.isSensitive key).
  - intros key. unfold Notifiers.maskedValue.
    now destruct (Notifiers.isSensitive key).
Qed.

(** C10: an entry whose key is [__proto__] is lost by both redactors, at the
    top level and (storage redactor) at a nested level: the assignment to
    that key creates no property of the result. *)
Theorem C10_proto_entry_is_dropped :
  Storages.maskSensitiveConfig
    [("__proto__", VStr "x"); ("host", VStr "s3.amazonaws.com")]
  = [("host", VStr "s3.amazonaws.com")]
  /\ Notifiers.maskSensitiveConfig
       [("__proto__", VStr "x"); ("host", VStr "smtp.example.com")]
     = [("host", VStr "smtp.example.com")]
  /\ Storages.maskSensitiveConfig
       [("connection", VObj [("__proto__", VObj [("region", VStr "eu")])])]
     = [("connection", VObj [])].
Proof. repeat split; reflexivity. Qed.

(** ** Claims about the client *)

Section ClientFacts.

Variable JSON_parse : string -> option value.
Variable JSON_stringify : value -> string.
Variable fetch :
  string -> Client.RequestInit -> Client.rejection + Client.Response.

Lemma request_settles method path body this :
  Client.request JSON_parse JSON_stringify fetch method path body this
  = (Client.settle JSON_parse
       (fetched JSON_stringify fetch method path body this), this).
Proof. reflexivity. Qed.

Lemma fetchArguments_headers method path body this :
  Client.headers
    (snd (fst (Client.fetchArguments JSON_stringify method path body this)))
  = fst (Client.getHeaders this).
Proof.
  unfold Client.fetchArguments, Client.bind, Client.field, Client.ret.
  simpl. destruct body as [payload|]; [|reflexivity].
  now destruct (Client.truthy (Some payload)).
Qed.

Lemma fetchArguments_url method path body this :
  fst (fst (Client.fetchArguments JSON_stringify method path body this))
  = Client.baseUrl this ++ path.
Proof. reflexivity. Qed.

Lemma getHeaders_cases this :
  let h := fst (Client.getHeaders this) in
  Obj.get h "Content-Type" = Some "application/json"
  /\ match configured (Client.bearerToken this),
           configured (Client.apiKey this) with
     | Some token, _ =>
         Obj.get h "Authorization" = Some ("Bearer " ++ token)
         /\ Obj.get h "X-API-Key" = None
     | None, Some key =>
         Obj.get h "X-API-Key" = Some key
         /\ Obj.get h "Authorization" = None
     | None, None =>
         Obj.get h "Authorization" = None /\ Obj.get h "X-API-Key" = None
     end.
Proof.
  destruct this as [base [[|c key]|] [[|c' token]|]]; simpl;
    repeat split; reflexivity.
Qed.

Lemma extractErrorMessage_fields (data : value) (status : nat) :
  Client.extractErrorMessage (Some data) status
  = match stringField data "error" with
    | Some error => error
    | None =>
        match stringField data "message" with
        | Some message => message
        | None => "HTTP error " ++ Str.ofNat status
        end
    end.
Proof.
  unfold Client.extractErrorMessage, Client.property, stringField.
  destruct data as [| | | |items|props]; try reflexivity.
  - cbn [isObjectLike Obj.entries].
    now rewrite !indexed_get_not_numeral by reflexivity.
  - cbn [isObjectLike Obj.entries].
    destruct (Obj.get props "error") as [[]|];
      destruct (Obj.get props "message") as [[]|]; reflexivity.
Qed.

Lemma substring_prefix (n : nat) (s : string) :
  exists rest, s = substring 0 n s ++ rest.
Proof.
  revert n. induction s as [|c s IH]; intros n.
  - exists EmptyString. now destruct n.
  - destruct n as [|n]; simpl.
    + now exists (String c s).
    + destruct (IH n) as [rest Hrest]. exists rest. now rewrite <- Hrest.
Qed.

Lemma substring_length (n : nat) (s : string) :
  String.length (substring 0 n s) = Nat.min n (String.length s).
Proof.
  revert n. induction s as [|c s IH]; intros n.
  - now destruct n.
  - destruct n as [|n]; simpl; [reflexivity|]. now rewrite IH.
Qed.

Lemma substring_short (n : nat) (s : string) :
  String.length s <= n -> substring 0 n s = s.
Proof.
  revert n. induction s as [|c s IH]; intros n Hlen.
  - now destruct n.
  - destruct n as [|n]; simpl in *; [lia|]. rewrite IH; [reflexivity|lia].
Qed.

End ClientFacts.

(** *** The constructor *)

Lemma replaceTrailingSlash_slash (t : string) :
  Str.replaceTrailingSlash (t ++ "/") = t.
Proof.
  induction t as [|c t IH].
  - reflexivity.
  - change (String c t ++ "/") with (String c (t ++ "/")).
    cbn [Str.replaceTrailingSlash]. rewrite IH.
    destruct (String.eqb_spec (String c (t ++ "/")) "/") as [Heq|_];
      [|reflexivity].
    injection Heq as _ Heq. now destruct t.
Qed.

Lemma replaceTrailingSlash_other (s : string) :
  (forall t, s <> t ++ "/") -> Str.replaceTrailingSlash s = s.
Proof.
  induction s as [|c s IH]; intros Hend.
  - reflexivity.
  - cbn [Str.replaceTrailingSlash].
    destruct (String.eqb_spec (String c s) "/") as [Heq|_].
    + exfalso. apply (Hend EmptyString). exact Heq.
    + f_equal. apply IH. intros t ->. now apply (Hend (String c t)).
Qed.

Lemma append_slashes (t : string) : t ++ "//" = (t ++ "/") ++ "/".
Proof. induction t as [|c t IH]; simpl; [reflexivity|now rewrite IH]. Qed.

(** C8: the constructor removes one trailing slash from the base URL when
    there is one (of two trailing slashes one stays), keeps a base URL that
    does not end in a slash, and copies the credentials; [getHeaders] and
    [request] leave the fields of the client as they found them. *)
Theorem C8_constructor_strips_one_slash :
  (forall (config : Types.DatabasusConfig) (t : string),
      Types.baseUrl config = t ++ "/" ->
      Client.baseUrl (Client.constructor config) = t)
  /\ (forall (config : Types.DatabasusConfig) (t : string),
         Types.baseUrl config = t ++ "//" ->
         Client.baseUrl (Client.constructor config) = t ++ "/")
  /\ (forall config : Types.DatabasusConfig,
         (forall t, Types.baseUrl config <> t ++ "/") ->
         Client.baseUrl (Client.constructor config) = Types.baseUrl config)
  /\ (forall config : Types.DatabasusConfig,
         Client.apiKey (Client.constructor config) = Types.apiKey config
         /\ Client.bearerToken (Client.constructor config)
            = Types.bearerToken config)
  /\ (forall this : Client.DatabasusClient,
         snd (Client.getHeaders this) = this)
  /\ (forall JSON_parse JSON_stringify fetch method path body
             (this : Client.DatabasusClient),
         snd (Client.request JSON_parse JSON_stringify fetch
                method path body this) = this).
Proof.
  repeat split.
  - intros config t Hurl. simpl. rewrite Hurl.
    apply replaceTrailingSlash_slash.
  - intros config t Hurl. simpl. rewrite Hurl, append_slashes.
    apply replaceTrailingSlash_slash.
  - intros config Hend. simpl. now apply replaceTrailingSlash_other.
Qed.

Lemma C8_constructor_strips_one_slash_witness :
  Client.baseUrl
    (Client.constructor
       {| Types.baseUrl := "https://backup.example.com/";
          Types.apiKey := Some "k"; Types.bearerToken := None |})
  = "https://backup.example.com"
  /\ Client.baseUrl
       (Client.constructor
          {| Types.baseUrl := "https://backup.example.com//";
             Types.apiKey := Some "k"; Types.bearerToken := None |})
     = "https://backup.example.com/"
  /\ Client.baseUrl
       (Client.constructor
          {| Types.baseUrl := "a";
             Types.apiKey := None; Types.bearerToken := None |})
     = "a".
Proof.
  split; [|split].
  - apply (proj1 C8_constructor_strips_one_slash). reflexivity.
  - apply (proj1 (proj2 C8_constructor_strips_one_slash) _
             "https://backup.example.com").
    reflexivity.
  - apply (proj1 (proj2 (proj2 C8_constructor_strips_one_slash))
             {| Types.baseUrl := "a";
                Types.apiKey := None; Types.bearerToken := None |}).
    intros t Heq. simpl in Heq. destruct t as [|c t]; [discriminate|].
    injection Heq as _ Heq. destruct t; discriminate.
Defined.

(** *** Headers *)

(** C3: the headers [request] hands to [fetch] are those of [getHeaders]:
    [Content-Type: application/json] always; with a bearer token configured,
    [Authorization: Bearer <token>] and no [X-API-Key], whether or not an API
    key is configured too; with only an API key configured, [X-API-Key: <key>]
    and no [Authorization]; with neither, neither header. *)
Theorem C3_auth_headers :
  forall JSON_parse JSON_stringify fetch (method path : string)
         (body : option value) (this : Client.DatabasusClient),
    let call :=
      fst (Client.fetchArguments JSON_stringify method path body this) in
    let h := Client.headers (snd call) in
    fst (Client.request JSON_parse JSON_stringify fetch method path body this)
    = Client.settle JSON_parse (fetch (fst call) (snd call))
    /\ Obj.get h "Content-Type" = Some "application/json"
    /\ match configured (Client.bearerToken this),
             configured (Client.apiKey this) with
       | Some token, _ =>
           Obj.get h "Authorization" = Some ("Bearer " ++ token)
           /\ Obj.get h "X-API-Key" = None
       | None, Some key =>
           Obj.get h "X-API-Key" = Some key
           /\ Obj.get h "Authorization" = None
       | None, None =>
           Obj.get h "Authorization" = None /\ Obj.get h "X-API-Key" = None
       end.
Proof.
  intros JSON_parse JSON_stringify fetch method path body this call h.
  split; [reflexivity|].
  subst h call. rewrite fetchArguments_headers. apply getHeaders_cases.
Qed.

(** *** Errors *)

(** C6: when the [fetch] promise rejects, [request] throws an error whose
    message is [Network error: ] followed by the message of the rejection
    if that is an [Error], and [Network error: Unknown error] otherwise. *)
Theorem C6_network_error_message :
  forall JSON_parse JSON_stringify fetch (method path : string)
         (body : option value) (this : Client.DatabasusClient)
         (reason : Client.rejection),
    fetched JSON_stringify fetch method path body this = inl reason ->
    fst (Client.request JSON_parse JSON_stringify fetch method path body this)
    = Client.Threw Client.NetworkError
        (match reason with
         | Client.ErrorInstance message => "Network error: " ++ message
         | Client.NotAnError => "Network error: Unknown error"
         end).
Proof.
  intros JSON_parse JSON_stringify fetch method path body this reason Hfetch.
  rewrite request_settles. cbn [fst]. rewrite Hfetch.
  now destruct reason.
Qed.

Lemma C6_network_error_message_witness :
  fst (Client.getDatabases exampleParse exampleStringify
         (failWith (Client.ErrorInstance "boom")) exampleClient)
  = Client.Threw Client.NetworkError "Network error: boom"
  /\ fst (Client.getDatabases exampleParse exampleStringify
            (failWith Client.NotAnError) exampleClient)
     = Client.Threw Client.NetworkError "Network error: Unknown error".
Proof.
  split.
  - apply (C6_network_error_message exampleParse exampleStringify
             (failWith (Client.ErrorInstance "boom"))
             "GET" "/api/databases" None exampleClient
             (Client.ErrorInstance "boom")).
    reflexivity.
  - apply (C6_network_error_message exampleParse exampleStringify
             (failWith Client.NotAnError)
             "GET" "/api/databases" None exampleClient Client.NotAnError).
    reflexivity.
Defined.

(** C4: a body text that is not empty and that [JSON.parse] rejects makes
    [request] throw [Invalid JSON response: ] followed by
    [responseText.substring(0, 100)]: the first 100 characters of the text,
    which is the whole text when it has at most 100 characters. *)
Theorem C4_invalid_json_message :
  forall JSON_parse JSON_stringify fetch (method path : string)
         (body : option value) (this : Client.DatabasusClient)
         (response : Client.Response) (responseText : string),
    fetched JSON_stringify fetch method path body this = inr response ->
    Client.text response = inr responseText ->
    responseText <> EmptyString ->
    JSON_parse responseText = None ->
    fst (Client.request JSON_parse JSON_stringify fetch method path body this)
    = Client.Threw Client.ResponseFormatError
        ("Invalid JSON response: " ++ substring 0 100 responseText)
    /\ String.length (substring 0 100 responseText)
       = Nat.min 100 (String.length responseText)
    /\ (exists rest, responseText = substring 0 100 responseText ++ rest)
    /\ (String.length responseText <= 100 ->
        substring 0 100 responseText = responseText).
Proof.
  intros JSON_parse JSON_stringify fetch method path body this
    response responseText Hfetch Htext Hnonempty Hparse.
  split; [|split; [apply substring_length|split;
                   [apply substring_prefix|apply substring_short]]].
  rewrite request_settles. cbn [fst]. rewrite Hfetch.
  unfold Client.settle. rewrite Htext.
  destruct responseText as [|c rest]; [contradiction|].
  now rewrite Hparse.
Qed.

Lemma C4_invalid_json_message_witness :
  fst (Client.getDatabases exampleParse exampleStringify
         (respond 200 "not valid json") exampleClient)
  = Client.Threw Client.ResponseFormatError
      "Invalid JSON response: not valid json"
  /\ fst (Client.getDatabases exampleParse exampleStringify
            (respond 200 (replicate 200 "a")) exampleClient)
     = Client.Threw Client.ResponseFormatError
         ("Invalid JSON response: " ++ replicate 100 "a").
Proof.
  split.
  - apply (C4_invalid_json_message exampleParse exampleStringify
             (respond 200 "not valid json")
             "GET" "/api/databases" None exampleClient
             {| Client.status := 200; Client.text := inr "not valid json" |}
             "not valid json");
      [reflexivity|reflexivity|discriminate|reflexivity].
  - apply (C4_invalid_json_message exampleParse exampleStringify
             (respond 200 (replicate 200 "a"))
             "GET" "/api/databases" None exampleClient
             {| Client.status := 200;
                Client.text := inr (replicate 200 "a") |}
             (replicate 200 "a"));
      [reflexivity|reflexivity|discriminate|reflexivity].
Defined.

(** C5: on a response that is not ok, with a body that is empty or parsed,
    [request] throws the string [error] field of the body, else its string
    [message] field, else [HTTP error <status>]. *)
Theorem C5_api_error_message :
  forall JSON_parse JSON_stringify fetch (method path : string)
         (body : option value) (this : Client.DatabasusClient)
         (response : Client.Response) (responseText : string),
    fetched JSON_stringify fetch method path body this = inr response ->
    Client.text response = inr responseText ->
    Client.ok response = false ->
    (responseText = EmptyString ->
     fst (Client.request JSON_parse JSON_stringify fetch
            method path body this)
     = Client.Threw Client.ApiError
         ("HTTP error " ++ Str.ofNat (Client.status response)))
    /\ (forall data : value,
           responseText <> EmptyString ->
           JSON_parse responseText = Some data ->
           fst (Client.request JSON_parse JSON_stringify fetch
                  method path body this)
           = Client.Threw Client.ApiError
               (match stringField data "error" with
                | Some error => error
                | None =>
                    match stringField data "message" with
                    | Some message => message
                    | None =>
                        "HTTP error " ++ Str.ofNat (Client.status response)
                    end
                end)).
Proof.
  intros JSON_parse JSON_stringify fetch method path body this
    response responseText Hfetch Htext Hok.
  split.
  - intros ->. rewrite request_settles. cbn [fst]. rewrite Hfetch.
    unfold Client.settle. now rewrite Htext, Hok.
  - intros data Hnonempty Hparse.
    rewrite request_settles. cbn [fst]. rewrite Hfetch.
    unfold Client.settle. rewrite Htext.
    destruct responseText as [|c rest]; [contradiction|].
    rewrite Hparse, Hok. cbn [negb]. f_equal.
    apply extractErrorMessage_fields.
Qed.

Lemma C5_api_error_message_witness :
  fst (Client.getDatabases exampleParse exampleStringify
         (respond 404 errorBody) exampleClient)
  = Client.Threw Client.ApiError "Database not found"
  /\ fst (Client.getDatabases exampleParse exampleStringify
            (respond 403 messageBody) exampleClient)
     = Client.Threw Client.ApiError "Access denied"
  /\ fst (Client.getDatabases exampleParse exampleStringify
            (respond 500 "{}") exampleClient)
     = Client.Threw Client.ApiError "HTTP error 500"
  /\ fst (Client.getDatabases exampleParse exampleStringify
            (respond 502 "") exampleClient)
     = Client.Threw Client.ApiError "HTTP error 502".
Proof.
  split; [|split; [|split]].
  - apply (proj2 (C5_api_error_message exampleParse exampleStringify
                    (respond 404 errorBody)
                    "GET" "/api/databases" None exampleClient
                    {| Client.status := 404; Client.text := inr errorBody |}
                    errorBody eq_refl eq_refl eq_refl)
             (VObj [("error", VStr "Database not found")]));
      [discriminate|reflexivity].
  - apply (proj2 (C5_api_error_message exampleParse exampleStringify
                    (respond 403 messageBody)
                    "GET" "/api/databases" None exampleClient
                    {| Client.status := 403; Client.text := inr messageBody |}
                    messageBody eq_refl eq_refl eq_refl)
             (VObj [("message", VStr "Access denied")]));
      [discriminate|reflexivity].
  - apply (proj2 (C5_api_error_message exampleParse exampleStringify
                    (respond 500 "{}")
                    "GET" "/api/databases" None exampleClient
                    {| Client.status := 500; Client.text := inr "{}" |}
                    "{}" eq_refl eq_refl eq_refl)
             (VObj []));
      [discriminate|reflexivity].
  - apply (proj1 (C5_api_error_message exampleParse exampleStringify
                    (respond 502 "")
                    "GET" "/api/databases" None exampleClient
                    {| Client.status := 502; Client.text := inr "" |}
                    "" eq_refl eq_refl eq_refl)).
    reflexivity.
Defined.

(** C7: the body is parsed before the status is looked at. A body text that
    is not empty and not JSON gives the [Invalid JSON response] error
    whatever the status; the error of the status check is thrown only for a
    response that is not ok and whose body text was empty or parsed. *)
Theorem C7_parse_precedes_status :
  forall JSON_parse JSON_stringify fetch (method path : string)
         (body : option value) (this : Client.DatabasusClient),
    (forall (status : nat) (responseText : string),
        fetched JSON_stringify fetch method path body this
        = inr {| Client.status := status; Client.text := inr responseText |} ->
        responseText <> EmptyString ->
        JSON_parse responseText = None ->
        fst (Client.request JSON_parse JSON_stringify fetch
               method path body this)
        = Client.Threw Client.ResponseFormatError
            ("Invalid JSON response: " ++ substring 0 100 responseText))
    /\ (forall message : string,
           fst (Client.request JSON_parse JSON_stringify fetch
                  method path body this)
           = Client.Threw Client.ApiError message ->
           exists (response : Client.Response) (responseText : string),
             fetched JSON_stringify fetch method path body this
             = inr response
             /\ Client.text response = inr responseText
             /\ Client.ok response = false
             /\ (responseText = EmptyString
                 \/ exists data, JSON_parse responseText = Some data)).
Proof.
  intros JSON_parse JSON_stringify fetch method path body this. split.
  - intros status responseText Hfetch Hnonempty Hparse.
    rewrite request_settles. cbn [fst]. rewrite Hfetch.
    unfold Client.settle. cbn [Client.text].
    destruct responseText as [|c rest]; [contradiction|].
    now rewrite Hparse.
  - intros message. rewrite request_settles. cbn [fst].
    destruct (fetched JSON_stringify fetch method path body this)
      as [reason|response] eqn:Hfetch; [discriminate|].
    unfold Client.settle.
    destruct (Client.text response) as [reason|responseText] eqn:Htext;
      [discriminate|].
    destruct responseText as [|c rest].
    + destruct (Client.ok response) eqn:Hok; [discriminate|].
      intros _. exists response, EmptyString. auto.
    + destruct (JSON_parse (String c rest)) as [data|] eqn:Hparse;
        [|discriminate].
      destruct (Client.ok response) eqn:Hok; [discriminate|].
      intros _. exists response, (String c rest).
      repeat split; auto. right. now exists data.
Qed.

Lemma C7_parse_precedes_status_witness :
  fst (Client.getDatabases exampleParse exampleStringify
         (respond 500 "<html>Bad gateway</html>") exampleClient)
  = Client.Threw Client.ResponseFormatError
      "Invalid JSON response: <html>Bad gateway</html>"
  /\ exists (response : Client.Response) (responseText : string),
      fetched exampleStringify (respond 500 "{}")
        "GET" "/api/databases" None exampleClient = inr response
      /\ Client.text response = inr responseText
      /\ Client.ok response = false
      /\ (responseText = EmptyString
          \/ exists data, exampleParse responseText = Some data).
Proof.
  split.
  - apply (proj1 (C7_parse_precedes_status exampleParse exampleStringify
                    (respond 500 "<html>Bad gateway</html>")
                    "GET" "/api/databases" None exampleClient)
             500 "<html>Bad gateway</html>");
      [reflexivity|discriminate|reflexivity].
  - apply (proj2 (C7_parse_precedes_status exampleParse exampleStringify
                    (respond 500 "{}")
                    "GET" "/api/databases" None exampleClient)
             "HTTP error 500").
    reflexivity.
Defined.

(** * Further properties *)

(** ** Substrings and lower case *)

Lemma append_assoc3 (a b c : string) : (a ++ b) ++ c = a ++ (b ++ c).
Proof. induction a as [|x a IH]; simpl; [reflexivity|now rewrite IH]. Qed.

Lemma prefix_iff (p s : string) :
  prefix p s = true <-> exists b, s = p ++ b.
Proof.
  revert s. induction p as [|c p IH]; intros s.
  - split; [intros _; now exists s|intros _; now destruct s].
  - destruct s as [|d s]; simpl.
    + split; [discriminate|intros [b Hb]; discriminate].
    + destruct (Ascii.ascii_dec c d) as [->|Hne].
      * rewrite IH. split; intros [b Hb]; exists b.
        -- now rewrite Hb.
        -- now injection Hb.
      * split; [discriminate|intros [b Hb]; injection Hb; congruence].
Qed.

Lemma includes_iff (s sub : string) :
  Str.includes s sub = true <-> exists a b, s = a ++ sub ++ b.
Proof.
  induction s as [|c s IH]; cbn [Str.includes].
  - destruct (prefix sub EmptyString) eqn:Hp.
    + apply prefix_iff in Hp as [b Hb]. split; [intros _|reflexivity].
      now exists EmptyString, b.
    + split; [discriminate|]. intros [a [b Hab]].
      destruct a; [|discriminate]. simpl in Hab.
      assert (prefix sub EmptyString = true)
        by (apply prefix_iff; now exists b).
      congruence.
  - destruct (prefix sub (String c s)) eqn:Hp.
    + apply prefix_iff in Hp as [b Hb]. split; [intros _|reflexivity].
      now exists EmptyString, b.
    + rewrite IH. split.
      * intros [a [b Hab]]. exists (String c a), b. simpl. now rewrite Hab.
      * intros [a [b Hab]]. destruct a as [|d a].
        -- simpl in Hab.
           assert (prefix sub (String c s) = true)
             by (apply prefix_iff; now exists b).
           congruence.
        -- simpl in Hab. injection Hab as _ Hab. now exists a, b.
Qed.

Lemma includes_trans (s mid sub : string) :
  Str.includes s mid = true ->
  Str.includes mid sub = true ->
  Str.includes s sub = true.
Proof.
  rewrite !includes_iff. intros [a [b ->]] [a' [b' ->]].
  exists (a ++ a'), (b' ++ b). now rewrite !append_assoc3.
Qed.

Lemma lowerChar_not_upper (c : ascii) : isUpper (Str.lowerChar c) = false.
Proof. destruct c as [[] [] [] [] [] [] [] []]; reflexivity. Qed.

Lemma toLowerCase_hasUpper (s : string) : hasUpper (Str.toLowerCase s) = false.
Proof.
  induction s as [|c s IH]; simpl; [reflexivity|].
  now rewrite lowerChar_not_upper, IH.
Qed.

Lemma hasUpper_app (a b : string) :
  hasUpper (a ++ b) = hasUpper a || hasUpper b.
Proof.
  induction a as [|c a IH]; simpl; [reflexivity|].
  now rewrite IH, orb_assoc.
Qed.

(** A keyword with a capital letter is never found in a lower-cased key. *)
Lemma includes_lower_no_upper (key sub : string) :
  hasUpper sub = true -> Str.includes (Str.toLowerCase key) sub = false.
Proof.
  intros Hup. destruct (Str.includes (Str.toLowerCase key) sub) eqn:Hin;
    [|reflexivity].
  apply includes_iff in Hin as [a [b Hab]].
  pose proof (toLowerCase_hasUpper key) as Hlow.
  rewrite Hab, !hasUpper_app, Hup in Hlow.
  now rewrite orb_true_r in Hlow.
Qed.

(** ** The keyword lists, exactly *)

Lemma matchesAny_In (keywords : list string) (lowerKey k : string) :
  In k keywords ->
  Str.includes lowerKey k = true ->
  matchesAny keywords lowerKey = true.
Proof.
  intros Hin Hk. unfold matchesAny. apply existsb_exists. now exists k.
Qed.

Ltac known_keyword :=
  unfold storageKeywords, notifierKeywords; simpl; tauto.

Ltac keyword_via Hk kw :=
  eapply (matchesAny_In _ _ kw);
  [known_keyword|eapply includes_trans; [exact Hk|reflexivity]].

Ltac keyword_case lk Hk :=
  first
    [ (* the keyword is one of the short list *)
      match type of Hk with
      | Str.includes _ ?k = true =>
          eapply (matchesAny_In _ _ k); [known_keyword|exact Hk]
      end
    | (* the keyword has a capital letter *)
      match type of Hk with
      | Str.includes (Str.toLowerCase ?key) ?k = true =>
          rewrite (includes_lower_no_upper key k eq_refl) in Hk;
          discriminate Hk
      end
    | (* the keyword contains one of the short list *)
      keyword_via Hk "key"
    | keyword_via Hk "url"
    | keyword_via Hk "token" ].

(** X1: the storage redactor treats a key as sensitive exactly when the
    lower-cased key contains [password], [secret], [key], [token] or
    [credential]. The other six entries of [SENSITIVE_KEYS] add nothing:
    [apiKey], [accessKey] and [secretKey] have a capital letter and can
    never be found in a lower-cased key, and [api_key], [access_key] and
    [secret_key] contain [key]. *)
Theorem X1_storage_sensitive_exactly (key : string) :
  Storages.isSensitive key
  = matchesAny storageKeywords (Str.toLowerCase key).
Proof.
  unfold Storages.isSensitive. apply eq_true_iff_eq. split.
  - unfold matchesAny at 1. rewrite existsb_exists. intros [k [Hin Hk]].
    unfold Storages.SENSITIVE_KEYS in Hin. simpl in Hin.
    repeat (destruct Hin as [<-|Hin];
            [keyword_case (Str.toLowerCase key) Hk|]).
    destruct Hin.
  - apply matchesAny_incl. intros k Hk. simpl in Hk.
    unfold Storages.SENSITIVE_KEYS.
    repeat (destruct Hk as [<-|Hk]; [simpl; tauto|]). destruct Hk.
Qed.

(** X2: the notifier redactor treats a key as sensitive exactly when the
    lower-cased key contains [url], [token], [api_key], [password] or
    [secret]. The entries [webhookUrl], [apiKey], [botToken] and
    [accessToken] can never be found in a lower-cased key; [webhook_url],
    [bot_token] and [access_token] contain [url] or [token]. A key
    [apiKey] or [privateKey] is therefore not sensitive to this redactor. *)
Theorem X2_notifier_sensitive_exactly (key : string) :
  Notifiers.isSensitive key
  = matchesAny notifierKeywords (Str.toLowerCase key).
Proof.
  unfold Notifiers.isSensitive. apply eq_true_iff_eq. split.
  - unfold matchesAny at 1. rewrite existsb_exists. intros [k [Hin Hk]].
    unfold Notifiers.sensitiveKeys in Hin. simpl in Hin.
    repeat (destruct Hin as [<-|Hin];
            [keyword_case (Str.toLowerCase key) Hk|]).
    destruct Hin.
  - apply matchesAny_incl. intros k Hk. simpl in Hk.
    unfold Notifiers.sensitiveKeys.
    repeat (destruct Hk as [<-|Hk]; [simpl; tauto|]). destruct Hk.
Qed.

(** ** What the result of a redactor can hold *)

Lemma storage_entry_origin (config : obj) (k : string) (w : value) :
  In (k, w) (Storages.maskSensitiveConfig config) ->
  exists v, In (k, v) config /\ w = storageAssigned k v.
Proof.
  rewrite storage_mask_is_fill. intros Hin.
  now destruct (fill_entries _ _ _ _ _ Hin) as [[]|Hv].
Qed.

Lemma notifier_entry_origin (config : obj) (k : string) (w : value) :
  In (k, w) (Notifiers.maskSensitiveConfig config) ->
  exists v, In (k, v) config /\ w = Notifiers.maskedValue k v.
Proof.
  rewrite notifier_mask_is_fill. intros Hin.
  now destruct (fill_entries _ _ _ _ _ Hin) as [[]|Hv].
Qed.

(** The three branches of the loop body. *)
Lemma storageAssigned_cases (k : string) (v : value) :
  (Storages.isSensitive k = true /\ isString v = true
   /\ storageAssigned k v = VStr Storages.marker)
  \/ (isObjectLike v = true
      /\ storageAssigned k v
         = VObj (Storages.maskSensitiveConfig (Obj.entries v)))
  \/ (isObjectLike v = false
      /\ Storages.isSensitive k && isString v = false
      /\ storageAssigned k v = v).
Proof.
  unfold storageAssigned, Storages.maskedValue.
  destruct (Storages.isSensitive k && isString v) eqn:Hmask.
  - left. apply andb_prop in Hmask as [Hs Hv]. auto.
  - destruct (isObjectLike v) eqn:Ho.
    + right. left. split; [reflexivity|]. now apply maskNested_entries.
    + right. right. auto.
Qed.

Lemma getPath_below_string (s : string) (k : string) (rest : list string) :
  getPath (VStr s) (k :: rest) = None.
Proof. reflexivity. Qed.

Lemma storage_result_hides (path : list string) :
  forall (config : obj) (key s : string),
    Storages.isSensitive key = true ->
    getPath (VObj (Storages.maskSensitiveConfig config))
      (path ++ [key])%list = Some (VStr s) ->
    s = Storages.marker.
Proof.
  induction path as [|k rest IH]; intros config key s Hs Hget.
  - simpl in Hget.
    destruct (Obj.get (Storages.maskSensitiveConfig config) key)
      as [w|] eqn:Hw; [|discriminate].
    injection Hget as ->.
    apply get_In, storage_entry_origin in Hw as [v [_ Hv]].
    destruct (storageAssigned_cases key v)
      as [[_ [_ Hm]]|[[_ Ho]|[Hprim [Hmask Hid]]]].
    + rewrite Hm in Hv. now injection Hv.
    + rewrite Ho in Hv. discriminate Hv.
    + rewrite Hid in Hv. subst v. simpl in Hmask. now rewrite Hs in Hmask.
  - change ((k :: rest) ++ [key])%list with (k :: (rest ++ [key]))%list in Hget.
    cbn [getPath Obj.entries] in Hget.
    destruct (Obj.get (Storages.maskSensitiveConfig config) k)
      as [w|] eqn:Hw; [|discriminate].
    apply get_In, storage_entry_origin in Hw as [v [_ ->]].
    destruct (rest ++ [key])%list as [|k' tail] eqn:Hp; [now destruct rest|].
    destruct (storageAssigned_cases k v)
      as [[_ [_ Hm]]|[[_ Ho]|[Hprim [_ Hid]]]].
    + rewrite Hm in Hget. discriminate Hget.
    + rewrite Ho, <- Hp in Hget. now apply (IH (Obj.entries v) key s).
    + rewrite Hid, getPath_primitive in Hget by exact Hprim.
      discriminate Hget.
Qed.

(** X3: whatever the configuration, the result of the storage redactor
    holds no string other than the marker under a sensitive key, at any
    depth. *)
Theorem X3_storage_result_hides_sensitive_strings :
  forall (path : list string) (config : obj) (key s : string),
    Storages.isSensitive key = true ->
    getPath (VObj (Storages.maskSensitiveConfig config))
      (path ++ [key])%list = Some (VStr s) ->
    s = Storages.marker.
Proof. intros path. apply storage_result_hides. Qed.

Lemma X3_storage_result_hides_sensitive_strings_witness :
  "***" = Storages.marker.
Proof.
  apply (X3_storage_result_hides_sensitive_strings ["connection"; "0"]
           [("connection",
             VArr [VObj [("host", VStr "h"); ("secretKey", VStr "s3cr3t")]])]
           "secretKey" "***");
    reflexivity.
Defined.

(** X4: whatever the configuration, the result of the notifier redactor
    holds no string other than the marker under a sensitive key of the top
    level. *)
Theorem X4_notifier_result_hides_sensitive_strings :
  forall (config : obj) (key s : string),
    Notifiers.isSensitive key = true ->
    Obj.get (Notifiers.maskSensitiveConfig config) key = Some (VStr s) ->
    s = Notifiers.marker.
Proof.
  intros config key s Hs Hget.
  apply get_In, notifier_entry_origin in Hget as [v [_ Hv]].
  unfold Notifiers.maskedValue in Hv. rewrite Hs in Hv.
  destruct v; simpl in Hv; try discriminate Hv.
  now injection Hv.
Qed.

Lemma X4_notifier_result_hides_sensitive_strings_witness :
  "***REDACTED***" = Notifiers.marker.
Proof.
  apply (X4_notifier_result_hides_sensitive_strings
           [("channel", VStr "#ops"); ("bot_token", VStr "123:abc")]
           "bot_token" "***REDACTED***");
    reflexivity.
Defined.

(** X5: the result of the storage redactor holds no array at any depth;
    an array of the configuration comes back as an object whose keys are
    the indices of the array, in order. *)
Theorem X5_storage_result_has_no_array :
  (forall (path : list string) (config : obj) (items : list value),
      getPath (VObj (Storages.maskSensitiveConfig config)) path
      <> Some (VArr items))
  /\ (forall items : list value,
         exists masked : obj,
           Storages.maskNested (VArr items) = VObj masked
           /\ Obj.keys masked = map Str.ofNat (seq 0 (length items))).
Proof.
  split.
  - induction path as [|k rest IH]; intros config items Hget.
    + discriminate Hget.
    + cbn [getPath Obj.entries] in Hget.
      destruct (Obj.get (Storages.maskSensitiveConfig config) k)
        as [w|] eqn:Hw; [|discriminate].
      apply get_In, storage_entry_origin in Hw as [v [_ ->]].
      destruct (storageAssigned_cases k v)
        as [[_ [_ Hm]]|[[_ Ho]|[Hprim [_ Hid]]]].
      * rewrite Hm in Hget. destruct rest; discriminate Hget.
      * rewrite Ho in Hget. now apply (IH (Obj.entries v) items).
      * rewrite Hid in Hget. destruct rest as [|k' rest].
        -- injection Hget as ->. discriminate Hprim.
        -- now rewrite getPath_primitive in Hget.
  - intros items. exists (Storages.maskSensitiveConfig (Obj.indexed 0 items)).
    split; [apply maskNested_array|].
    rewrite storage_mask_is_fill, fill_object_keys
      by apply indexed_keys_NoDup.
    rewrite filter_notProto_id by apply indexed_keys_no_proto.
    apply indexed_keys.
Qed.

(** ** The redactors on objects, as maps *)







(** ** The client: how a request settles *)

(** X8: [request] resolves exactly when [fetch] resolved with a response
    that is ok and whose body text was read and is empty or JSON; it then
    resolves with [undefined] for the empty text and with the parsed value
    otherwise. It never resolves on another status and never with anything
    but the parsed body. *)
Theorem X8_request_resolves_exactly :
  forall JSON_parse JSON_stringify fetch (method path : string)
         (body : option value) (this : Client.DatabasusClient)
         (data : option value),
    fst (Client.request JSON_parse JSON_stringify fetch method path body this)
    = Client.Resolved data
    <-> exists (response : Client.Response) (responseText : string),
        fetched JSON_stringify fetch method path body this = inr response
        /\ Client.text response = inr responseText
        /\ Client.ok response = true
        /\ ((responseText = EmptyString /\ data = None)
            \/ (responseText <> EmptyString
                /\ exists parsed, JSON_parse responseText = Some parsed
                                  /\ data = Some parsed)).
Proof.
  intros JSON_parse JSON_stringify fetch method path body this data.
  rewrite request_settles. cbn [fst]. split.
  - destruct (fetched JSON_stringify fetch method path body this)
      as [reason|response] eqn:Hfetch; [discriminate|].
    unfold Client.settle.
    destruct (Client.text response) as [reason|responseText] eqn:Htext;
      [discriminate|].
    destruct responseText as [|c rest].
    + destruct (Client.ok response) eqn:Hok; [|discriminate].
      intros [= <-]. exists response, EmptyString.
      repeat (split; [first [reflexivity|assumption]|]). left. now split.
    + destruct (JSON_parse (String c rest)) as [parsed|] eqn:Hparse;
        [|discriminate].
      destruct (Client.ok response) eqn:Hok; [|discriminate].
      intros [= <-]. exists response, (String c rest).
      repeat (split; [first [reflexivity|assumption]|]).
      right. split; [discriminate|].
      now exists parsed.
  - intros [response [responseText [-> [Htext [Hok Hbody]]]]].
    unfold Client.settle. rewrite Htext, Hok.
    destruct Hbody as [[-> ->]|[Hne [parsed [Hparse ->]]]].
    + reflexivity.
    + destruct responseText as [|c rest]; [contradiction|].
      now rewrite Hparse.
Qed.

Lemma X8_request_resolves_exactly_witness :
  fst (Client.getDatabases exampleParse exampleStringify
         (respond 204 "") exampleClient)
  = Client.Resolved None
  /\ fst (Client.getDatabases exampleParse exampleStringify
            (respond 200 "{}") exampleClient)
     = Client.Resolved (Some (VObj [])).
Proof.
  split.
  - apply (proj2 (X8_request_resolves_exactly exampleParse exampleStringify
                    (respond 204 "") "GET" "/api/databases" None
                    exampleClient None)).
    exists {| Client.status := 204; Client.text := inr "" |}, EmptyString.
    repeat (split; [reflexivity|]). left. now split.
  - apply (proj2 (X8_request_resolves_exactly exampleParse exampleStringify
                    (respond 200 "{}") "GET" "/api/databases" None
                    exampleClient (Some (VObj [])))).
    exists {| Client.status := 200; Client.text := inr "{}" |}, "{}".
    repeat (split; [reflexivity|]). right. split; [discriminate|].
    now exists (VObj []).
Defined.

(** X9: the [try] of [request] covers the [fetch] call only. A rejection of
    [response.text()] is not turned into one of the errors of [request]: it
    is what [request] rejects with, whatever the status, and nothing else
    passes through in this way. *)
Theorem X9_body_read_rejection_passes :
  forall JSON_parse JSON_stringify fetch (method path : string)
         (body : option value) (this : Client.DatabasusClient)
         (reason : Client.rejection),
    fst (Client.request JSON_parse JSON_stringify fetch method path body this)
    = Client.Passed reason
    <-> exists response : Client.Response,
        fetched JSON_stringify fetch method path body this = inr response
        /\ Client.text response = inl reason.
Proof.
  intros JSON_parse JSON_stringify fetch method path body this reason.
  rewrite request_settles. cbn [fst]. split.
  - destruct (fetched JSON_stringify fetch method path body this)
      as [error|response] eqn:Hfetch; [discriminate|].
    unfold Client.settle.
    destruct (Client.text response) as [reason'|responseText] eqn:Htext.
    + intros [= <-]. now exists response.
    + destruct responseText as [|c rest].
      * destruct (Client.ok response); discriminate.
      * destruct (JSON_parse (String c rest));
          [destruct (Client.ok response)|]; discriminate.
  - intros [response [-> Htext]]. unfold Client.settle. now rewrite Htext.
Qed.

Lemma X9_body_read_rejection_passes_witness :
  fst (Client.getDatabases exampleParse exampleStringify
         (fun _ _ =>
            inr {| Client.status := 200;
                   Client.text := inl (Client.ErrorInstance "terminated") |})
         exampleClient)
  = Client.Passed (Client.ErrorInstance "terminated").
Proof.
  apply (proj2 (X9_body_read_rejection_passes exampleParse exampleStringify
                  (fun _ _ =>
                     inr {| Client.status := 200;
                            Client.text :=
                              inl (Client.ErrorInstance "terminated") |})
                  "GET" "/api/databases" None exampleClient
                  (Client.ErrorInstance "terminated"))).
  now exists {| Client.status := 200;
                Client.text := inl (Client.ErrorInstance "terminated") |}.
Defined.

(** ** The client: its operations *)

Lemma perform_request JSON_parse JSON_stringify fetch
  (op : Operations.operation) (this : Client.DatabasusClient) :
  Operations.perform JSON_parse JSON_stringify fetch op this
  = ((if returnsNothing op then Operations.discard else fun settled => settled)
       (Client.settle JSON_parse
          (fetch (fst (fetchCallOf JSON_stringify op this))
                 (snd (fetchCallOf JSON_stringify op this)))),
     this).
Proof.
  destruct op; try reflexivity.
  destruct databaseId as [[|c s]|]; reflexivity.
Qed.

Lemma fetchArguments_body JSON_stringify (method path : string)
  (body : option value) (this : Client.DatabasusClient) :
  Client.body
    (snd (fst (Client.fetchArguments JSON_stringify method path body this)))
  = match body with
    | Some data =>
        if Client.truthy body then Some (JSON_stringify data) else None
    | None => None
    end.
Proof.
  unfold Client.fetchArguments, Client.bind, Client.field, Client.ret.
  simpl. destruct body as [data|]; [|reflexivity].
  now destruct (Client.truthy (Some data)).
Qed.

Lemma fetchArguments_method JSON_stringify (method path : string)
  (body : option value) (this : Client.DatabasusClient) :
  Client.method
    (snd (fst (Client.fetchArguments JSON_stringify method path body this)))
  = method.
Proof.
  unfold Client.fetchArguments, Client.bind, Client.field, Client.ret.
  simpl. destruct body as [data|]; [|reflexivity].
  now destruct (Client.truthy (Some data)).
Qed.

Lemma truthy_objectlike (data : value) :
  isObjectLike data = true -> Client.truthy (Some data) = true.
Proof. destruct data; try discriminate; reflexivity. Qed.

(** X10: every operation of the client is one [fetch] call, with the method
    of the operation and the headers of [getHeaders]. The call carries a
    body only for a payload that is truthy, and then the body is
    [JSON.stringify] of the payload; the reads (GET) and the removals
    (DELETE) have no payload and never carry a body, nor do the triggers
    [triggerBackup], [testStorage] and [testNotifier]. *)
Theorem X10_operations_bodies :
  forall JSON_parse JSON_stringify fetch
         (op : Operations.operation) (this : Client.DatabasusClient),
    let call := fetchCallOf JSON_stringify op this in
    fst (Operations.perform JSON_parse JSON_stringify fetch op this)
    = (if returnsNothing op then Operations.discard else fun settled => settled)
        (Client.settle JSON_parse (fetch (fst call) (snd call)))
    /\ Client.method (snd call) = methodOf op
    /\ In (methodOf op) ["GET"; "POST"; "PUT"; "DELETE"]
    /\ Client.headers (snd call) = fst (Client.getHeaders this)
    /\ Client.body (snd call)
       = match payloadOf op with
         | Some data =>
             if Client.truthy (Some data)
             then Some (JSON_stringify data) else None
         | None => None
         end
    /\ (methodOf op = "GET" \/ methodOf op = "DELETE" ->
        Client.body (snd call) = None)
    /\ (forall data : value,
           payloadOf op = Some data ->
           isObjectLike data = true ->
           (methodOf op = "POST" \/ methodOf op = "PUT")
           /\ Client.body (snd call) = Some (JSON_stringify data)).
Proof.
  intros JSON_parse JSON_stringify fetch op this call. subst call.
  unfold fetchCallOf.
  rewrite perform_request, fetchArguments_method, fetchArguments_headers,
    fetchArguments_body.
  split; [reflexivity|]. split; [reflexivity|].
  split.
  { destruct op; try (simpl; tauto).
    destruct databaseId as [[|c s]|]; simpl; tauto. }
  split; [reflexivity|]. split; [now destruct (payloadOf op)|]. split.
  - intros [Hm|Hm]; destruct op; try reflexivity; try discriminate Hm;
      destruct databaseId as [[|c s]|]; reflexivity.
  - intros data Hpayload Hobj. split.
    + destruct op; try discriminate Hpayload; simpl; try tauto.
      destruct databaseId as [[|c s]|]; discriminate Hpayload.
    + rewrite Hpayload. now rewrite (truthy_objectlike data Hobj).
Qed.

Lemma X10_operations_bodies_witness :
  Client.body
    (snd (fetchCallOf exampleStringify
            (Operations.DeleteStorage "s1") exampleClient)) = None
  /\ Client.body
       (snd (fetchCallOf exampleStringify
               (Operations.UpdateStorage "s1"
                  (VObj [("enabled", VBool false)])) exampleClient))
     = Some "{}".
Proof.
  split.
  - apply (proj1 (proj2 (proj2 (proj2 (proj2 (proj2
             (X10_operations_bodies exampleParse exampleStringify
                (respond 204 "") (Operations.DeleteStorage "s1")
                exampleClient))))))).
    right. reflexivity.
  - apply (proj2 (proj2 (proj2 (proj2 (proj2 (proj2
             (X10_operations_bodies exampleParse exampleStringify
                (respond 200 "{}")
                (Operations.UpdateStorage "s1"
                   (VObj [("enabled", VBool false)]))
                exampleClient))))))
             (VObj [("enabled", VBool false)]) eq_refl eq_refl).
Defined.

Ltac no_trailing_slash :=
  let u := fresh "u" in
  let Heq := fresh "Heq" in
  intros u Heq;
  repeat (destruct u as [|? u]; simpl in Heq;
          [discriminate Heq|injection Heq as _ Heq]);
  destruct u; discriminate Heq.

(** X11: the URL of every operation is the configured base URL without its
    trailing slash, followed by the path of the operation; every path
    starts with [/api/], so a base URL given with or without a trailing
    slash leads to the same URL. The backup listing carries the
    [databaseId] query only for an identifier that is not empty. *)
Theorem X11_operations_urls :
  forall JSON_stringify (op : Operations.operation)
         (config : Types.DatabasusConfig),
    let url :=
      fst (fetchCallOf JSON_stringify op (Client.constructor config)) in
    url = Str.replaceTrailingSlash (Types.baseUrl config) ++ pathOf op
    /\ prefix "/api/" (pathOf op) = true
    /\ (forall t : string,
           (forall u, t <> u ++ "/") ->
           Types.baseUrl config = t \/ Types.baseUrl config = t ++ "/" ->
           url = t ++ pathOf op)
    /\ (forall databaseId : option string,
           pathOf (Operations.GetBackups databaseId)
           = match configured databaseId with
             | Some id => "/api/backups?databaseId=" ++ id
             | None => "/api/backups"
             end).
Proof.
  intros JSON_stringify op config url. subst url. unfold fetchCallOf.
  rewrite fetchArguments_url. cbn [Client.constructor Client.baseUrl].
  split; [reflexivity|]. split.
  { destruct op; try reflexivity.
    destruct databaseId as [[|c s]|]; reflexivity. }
  split.
  - intros t Hend [->| ->].
    + now rewrite replaceTrailingSlash_other.
    + now rewrite replaceTrailingSlash_slash.
  - intros [[|c s]|]; reflexivity.
Qed.

Lemma X11_operations_urls_witness :
  fst (fetchCallOf exampleStringify
         (Operations.GetBackups (Some "db1")) exampleClient)
  = "https://backup.example.com/api/backups?databaseId=db1".
Proof.
  apply (proj1 (proj2 (proj2
           (X11_operations_urls exampleStringify
              (Operations.GetBackups (Some "db1"))
              {| Types.baseUrl := "https://backup.example.com/";
                 Types.apiKey := Some "test-api-key";
                 Types.bearerToken := None |})))
           "https://backup.example.com").
  - no_trailing_slash.
  - right. reflexivity.
Defined.

(** ** The tools: views of one storage and of one notifier *)

Section ToolFacts.

Variable TypeError_message : Tools.typeError -> string.

Local Abbreviation member := (Tools.member TypeError_message).

Lemma member_value (v : value) (name : string) :
  v <> VNull ->
  member (Some v) name = inr (Obj.get (Tools.ownEntries v) name).
Proof. destruct v; try reflexivity. intros H. now contradiction H. Qed.


Lemma maskStorage_value (v : value) :
  v <> VNull ->
  Tools.maskStorage TypeError_message (Some v)
  = Tools.andThen
      (Tools.storageConfig TypeError_message
         (Obj.get (Tools.ownEntries v) "config"))
      (fun masked =>
         inr [("id", Obj.get (Tools.ownEntries v) "id");
              ("name", Obj.get (Tools.ownEntries v) "name");
              ("type", Obj.get (Tools.ownEntries v) "type");
              ("enabled", Obj.get (Tools.ownEntries v) "enabled");
              ("config", Some (VObj masked));
              ("createdAt", Obj.get (Tools.ownEntries v) "createdAt");
              ("updatedAt", Obj.get (Tools.ownEntries v) "updatedAt")]).
Proof.
  intros Hv. unfold Tools.maskStorage.
  rewrite !(member_value v _ Hv). cbn [Tools.andThen].
  now destruct (Tools.storageConfig TypeError_message
                  (Obj.get (Tools.ownEntries v) "config")).
Qed.

Lemma maskStorage_nullish (storage : Tools.maybe) (fields : Tools.literal) :
  Tools.maskStorage TypeError_message storage = inr fields ->
  exists v, storage = Some v /\ v <> VNull.
Proof.
  destruct storage as [v|]; [|discriminate].
  destruct v; try discriminate; intros _; eexists;
    (split; [reflexivity|discriminate]).
Qed.

End ToolFacts.

(** X12: when [maskStorage] returns, its result has the seven members [id],
    [name], [type], [enabled], [config], [createdAt], [updatedAt] and no
    other, whatever else the storage holds; six of them are the members of
    the storage as they are; [config] is an object that holds no string
    other than the marker under a sensitive key, at any depth. *)
Theorem X12_maskStorage_view :
  forall (TypeError_message : Tools.typeError -> string)
         (storage : Tools.maybe) (fields : Tools.literal),
    Tools.maskStorage TypeError_message storage = inr fields ->
    map fst fields = storageFields
    /\ (forall (name : string) (x : Tools.maybe),
           In (name, x) fields -> name <> "config" ->
           Tools.member TypeError_message storage name = inr x)
    /\ exists masked : obj,
        In ("config", Some (VObj masked)) fields
        /\ forall (path : list string) (key s : string),
            Storages.isSensitive key = true ->
            getPath (VObj masked) (path ++ [key])%list = Some (VStr s) ->
            s = Storages.marker.
Proof.
  intros msg storage fields Hview.
  destruct (maskStorage_nullish msg storage fields Hview) as [v [-> Hv]].
  rewrite (maskStorage_value msg v Hv) in Hview.
  destruct (Tools.storageConfig msg (Obj.get (Tools.ownEntries v) "config"))
    as [thrown|masked] eqn:Hconfig; [discriminate|].
  cbn [Tools.andThen] in Hview. injection Hview as <-.
  split; [reflexivity|]. split.
  - intros name x Hin Hname. rewrite (member_value msg v name Hv).
    simpl in Hin.
    repeat (destruct Hin as [[= <- <-]|Hin]; [try reflexivity|]);
      contradiction.
  - exists masked. split; [simpl; tauto|].
    unfold Tools.storageConfig in Hconfig.
    destruct (Tools.objectEntries msg (Obj.get (Tools.ownEntries v) "config"))
      as [thrown|entries]; [discriminate|].
    cbn [Tools.andThen] in Hconfig. injection Hconfig as <-.
    intros path. apply storage_result_hides.
Qed.

Lemma X12_maskStorage_view_witness :
  map fst
    [("id", Some (VStr "s1")); ("name", None); ("type", None);
     ("enabled", None); ("config", Some (VObj [("secretKey", VStr "***")]));
     ("createdAt", None); ("updatedAt", None)]
  = storageFields.
Proof.
  apply (X12_maskStorage_view exampleTypeError
           (Some (VObj [("id", VStr "s1");
                        ("config", VObj [("secretKey", VStr "AKIA")]);
                        ("owner", VStr "ops")]))).
  reflexivity.
Defined.

(** ** The tools: listings *)

Lemma summary_value (TypeError_message : Tools.typeError -> string)
  (item : value) (fields : Tools.literal) :
  Tools.summary TypeError_message item = inr fields ->
  item <> VNull
  /\ fields = [("id", Obj.get (Tools.ownEntries item) "id");
               ("name", Obj.get (Tools.ownEntries item) "name");
               ("type", Obj.get (Tools.ownEntries item) "type");
               ("enabled", Obj.get (Tools.ownEntries item) "enabled")].
Proof.
  intros Hsum.
  assert (Hitem : item <> VNull) by (intros ->; discriminate Hsum).
  split; [exact Hitem|].
  unfold Tools.summary in Hsum.
  rewrite !(member_value TypeError_message item _ Hitem) in Hsum.
  cbn [Tools.andThen] in Hsum. now injection Hsum.
Qed.

Lemma mapItems_summary (TypeError_message : Tools.typeError -> string)
  (items : list value) :
  forall result : list Tools.literal,
    Tools.mapItems (Tools.summary TypeError_message) items = inr result ->
    Forall2 (fun item fields =>
               Tools.summary TypeError_message item = inr fields)
      items result.
Proof.
  induction items as [|item rest IH]; intros result Hmap.
  - injection Hmap as <-. constructor.
  - cbn [Tools.mapItems] in Hmap.
    destruct (Tools.summary TypeError_message item) as [thrown|fields] eqn:Hs;
      [discriminate|].
    cbn [Tools.andThen] in Hmap.
    destruct (Tools.mapItems (Tools.summary TypeError_message) rest)
      as [thrown|others]; [discriminate|].
    cbn [Tools.andThen] in Hmap. injection Hmap as <-.
    constructor; [exact Hs|now apply IH].
Qed.

(** X13: when [maskStorages] returns, the storages were an array and the
    result has one item per storage, in order, made of the four members
    [id], [name], [type] and [enabled] of that storage: no item of a
    listing has a [config] member. The notifier listing uses the same
    projection. *)
Theorem X13_listings_show_four_members :
  forall (TypeError_message : Tools.typeError -> string)
         (storages : Tools.maybe) (result : list Tools.literal),
    Tools.maskStorages TypeError_message storages = inr result ->
    exists items : list value,
      storages = Some (VArr items)
      /\ length result = length items
      /\ Forall2 (fun item fields =>
                    item <> VNull
                    /\ map fst fields = summaryFields
                    /\ (forall (name : string) (x : Tools.maybe),
                           In (name, x) fields ->
                           x = Obj.get (Tools.ownEntries item) name)
                    /\ Obj.get (Tools.defined fields) "config" = None)
           items result.
Proof.
  intros msg storages result Hmap. unfold Tools.maskStorages in Hmap.
  destruct storages as [[| | | |items|props]|]; try discriminate Hmap.
  exists items. split; [reflexivity|].
  cbn [Tools.arrayMap] in Hmap. apply mapItems_summary in Hmap.
  split; [symmetry; eapply Forall2_length, Hmap|].
  eapply Forall2_impl; [|exact Hmap].
  intros item fields Hs. apply summary_value in Hs as [Hitem ->].
  split; [exact Hitem|]. split; [reflexivity|]. split.
  - intros name x Hin. simpl in Hin.
    repeat (destruct Hin as [[= <- <-]|Hin]; [reflexivity|]).
    contradiction.
  - simpl.
    destruct (Obj.get (Tools.ownEntries item) "id");
      destruct (Obj.get (Tools.ownEntries item) "name");
      destruct (Obj.get (Tools.ownEntries item) "type");
      destruct (Obj.get (Tools.ownEntries item) "enabled"); reflexivity.
Qed.

Lemma X13_listings_show_four_members_witness :
  exists items : list value,
    Some (VArr [VObj [("id", VStr "s1");
                      ("config", VObj [("secretKey", VStr "AKIA")])]])
    = Some (VArr items)
    /\ length [[("id", Some (VStr "s1")); ("name", None); ("type", None);
                ("enabled", None)]] = length items
    /\ Forall2 (fun item fields =>
                  item <> VNull
                  /\ map fst fields = summaryFields
                  /\ (forall (name : string) (x : Tools.maybe),
                         In (name, x) fields ->
                         x = Obj.get (Tools.ownEntries item) name)
                  /\ Obj.get (Tools.defined fields) "config" = None)
         items
         [[("id", Some (VStr "s1")); ("name", None); ("type", None);
           ("enabled", None)]].
Proof.
  apply (X13_listings_show_four_members exampleTypeError
           (Some (VArr [VObj [("id", VStr "s1");
                              ("config",
                               VObj [("secretKey", VStr "AKIA")])]]))).
  reflexivity.
Defined.

(** ** The tools: the view of one notifier *)







(** ** The tools: from the client to the result *)

(** What a handler makes of the settled operation. *)
Lemma storageDetail_text JSON_stringify JSON_stringify_pretty
  TypeError_message (settled : Client.outcome) :
  Tools.text
    (Tools.storageDetail JSON_stringify JSON_stringify_pretty
       TypeError_message settled) <> None.
Proof.
  unfold Tools.storageDetail.
  destruct (Tools.andThen (Tools.awaited settled)
              (fun storage => Tools.maskStorage TypeError_message storage));
    discriminate.
Qed.

Lemma notifierDetail_text JSON_stringify JSON_stringify_pretty
  TypeError_message (settled : Client.outcome) :
  Tools.text
    (Tools.notifierDetail JSON_stringify JSON_stringify_pretty
       TypeError_message settled) <> None.
Proof.
  unfold Tools.notifierDetail.
  destruct (Tools.andThen (Tools.awaited settled)
              (fun notifier => Tools.maskNotifier TypeError_message notifier));
    discriminate.
Qed.

Ltac run_tool call this :=
  destruct call; cbn [runTool operationOf Operations.perform];
  unfold Tools.databasus_list_storages, Tools.databasus_get_storage,
    Tools.databasus_create_storage, Tools.databasus_update_storage,
    Tools.databasus_delete_storage, Tools.databasus_test_storage,
    Tools.databasus_list_notifiers, Tools.databasus_get_notifier,
    Tools.databasus_create_notifier, Tools.databasus_update_notifier,
    Tools.databasus_delete_notifier, Tools.databasus_test_notifier,
    Client.bind, Client.ret;
  match goal with
  | |- context [?op this] =>
      match type of (op this) with
      | (Client.outcome * Client.DatabasusClient)%type =>
          let settled := fresh "settled" in
          let this' := fresh "this'" in
          destruct (op this) as [settled this']
      end
  end;
  cbn [fst snd].

(** X15: when the client operation of a storage or notifier tool rejects,
    the tool does not reject: it returns a text, [JSON.stringify] of an
    object whose [error] member is the message of the rejection if that is
    an [Error] (every error of [request] is) and [Unknown error]
    otherwise. The two test tools add [success: false]; the notifier tools
    set [isError], the storage tools do not. *)
Theorem X15_tools_report_client_errors :
  forall JSON_parse JSON_stringify JSON_stringify_pretty fetch
         TypeError_message (call : toolCall) (this : Client.DatabasusClient)
         (error : Client.rejection),
    Tools.awaited
      (fst (Operations.perform JSON_parse JSON_stringify fetch
              (operationOf call) this)) = inl error ->
    fst (runTool JSON_parse JSON_stringify JSON_stringify_pretty fetch
           TypeError_message call this)
    = {| Tools.text :=
           Some (JSON_stringify
                   (VObj (if isTestTool call
                          then [("success", VBool false);
                                ("error",
                                 VStr (Tools.messageOr error "Unknown error"))]
                          else [("error",
                                 VStr (Tools.messageOr error
                                         "Unknown error"))])));
         Tools.isError := isNotifierTool call |}.
Proof.
  intros JSON_parse JSON_stringify JSON_stringify_pretty fetch
    TypeError_message call this error.
  run_tool call this; intros Hsettled;
    unfold Tools.storageDetail, Tools.notifierDetail;
    rewrite Hsettled; reflexivity.
Qed.

Lemma X15_tools_report_client_errors_witness :
  fst (runTool exampleParse exampleStringify examplePretty
         (respond 404 errorBody) exampleTypeError
         (GetNotifierTool "n1") exampleClient)
  = {| Tools.text := Some "{}"; Tools.isError := true |}.
Proof.
  apply (X15_tools_report_client_errors exampleParse exampleStringify
           examplePretty (respond 404 errorBody) exampleTypeError
           (GetNotifierTool "n1") exampleClient
           (Client.ErrorInstance "Database not found")).
  reflexivity.
Defined.

(** X16: the result of a storage or notifier tool has a text in every case
    but one: a test tool ([databasus_test_storage],
    [databasus_test_notifier]) whose request resolved with [undefined],
    that is on an ok response with an empty body, returns a content item
    whose text is [undefined]. *)
Theorem X16_tool_text_is_missing_exactly :
  forall JSON_parse JSON_stringify JSON_stringify_pretty fetch
         TypeError_message (call : toolCall) (this : Client.DatabasusClient),
    Tools.text
      (fst (runTool JSON_parse JSON_stringify JSON_stringify_pretty fetch
              TypeError_message call this)) = None
    <-> isTestTool call = true
        /\ fst (Operations.perform JSON_parse JSON_stringify fetch
                  (operationOf call) this) = Client.Resolved None.
Proof.
  intros JSON_parse JSON_stringify JSON_stringify_pretty fetch
    TypeError_message call this.
  run_tool call this; split.
  all: try (intros [Htest _]; discriminate Htest).
  all: try (intros Htext; exfalso;
            first [now apply storageDetail_text in Htext
                  |now apply notifierDetail_text in Htext]).
  all: try (intros Htext; exfalso; revert Htext;
            match goal with
            | |- Tools.text (match ?x with _ => _ end) = None -> False =>
                destruct x; discriminate
            end).
  all: try (intros [_ ->]; reflexivity).
  all: intros Htext; split; [reflexivity|];
    destruct settled as [[data|]|kind message|reason];
    first [reflexivity|discriminate Htext].
Qed.

Lemma X16_tool_text_is_missing_exactly_witness :
  Tools.text
    (fst (runTool exampleParse exampleStringify examplePretty
            (respond 204 "") exampleTypeError
            (TestStorageTool "s1") exampleClient)) = None.
Proof.
  apply (proj2 (X16_tool_text_is_missing_exactly exampleParse
                  exampleStringify examplePretty (respond 204 "")
                  exampleTypeError (TestStorageTool "s1") exampleClient)).
  split; reflexivity.
Defined.

(** ** Backup statistics *)







Lemma latest_fold (Date_time : Tools.maybe -> option Z)
  (rest : list value) :
  forall first : value,
    let last :=
      fold_left
        (fun latest b =>
           if Stats.completedLater Date_time b latest then b else latest)
        rest first in
    In last (first :: rest)
    /\ (completedTime Date_time first = None -> last = first)
    /\ (forall t0 : Z,
           completedTime Date_time first = Some t0 ->
           exists tl : Z,
             completedTime Date_time last = Some tl
             /\ (t0 <= tl)%Z
             /\ forall (b : value) (tb : Z),
                 In b rest -> completedTime Date_time b = Some tb ->
                 (tb <= tl)%Z).
Proof.
  induction rest as [|b rest IH]; intros first; cbn [fold_left].
  - split; [now left|]. split; [reflexivity|].
    intros t0 Ht0. exists t0. split; [exact Ht0|]. split; [lia|].
    intros b tb [].
  - destruct (IH (if Stats.completedLater Date_time b first then b else first))
      as [Hin [Hnan Hmax]].
    unfold Stats.completedLater in *. fold (completedTime Date_time b) in *.
    fold (completedTime Date_time first) in *.
    split; [|split].
    + destruct Hin as [Heq|Hin]; [|right; now right].
      rewrite <- Heq.
      destruct (completedTime Date_time b), (completedTime Date_time first);
        try (now left).
      destruct (z0 <? z)%Z; [right|]; now left.
    + intros Hfirst. rewrite Hfirst in *.
      destruct (completedTime Date_time b); now apply Hnan.
    + intros t0 Ht0. rewrite Ht0 in *.
      destruct (completedTime Date_time b) as [tb0|] eqn:Hb.
      * destruct (Z.ltb_spec t0 tb0) as [Hlt|Hge].
        -- destruct (Hmax tb0 Hb) as [tl [Htl [Hle Hall]]].
           exists tl. split; [exact Htl|]. split; [lia|].
           intros b' tb' [<-|Hin'] Hb'; [|now apply (Hall b')].
           rewrite Hb in Hb'. injection Hb' as <-. exact Hle.
        -- destruct (Hmax t0 Ht0) as [tl [Htl [Hle Hall]]].
           exists tl. split; [exact Htl|]. split; [exact Hle|].
           intros b' tb' [<-|Hin'] Hb'; [|now apply (Hall b')].
           rewrite Hb in Hb'. injection Hb' as <-. lia.
      * destruct (Hmax t0 Ht0) as [tl [Htl [Hle Hall]]].
        exists tl. split; [exact Htl|]. split; [exact Hle|].
        intros b' tb' [<-|Hin'] Hb'; [|now apply (Hall b')].
        rewrite Hb in Hb'. discriminate Hb'.
Qed.

(** X18: the last backup of the statistics is [null] exactly when no backup
    is completed, and is one of the completed backups otherwise. If the
    first completed backup has a valid [completedAt], the last backup has a
    valid one too, and no completed backup with a valid [completedAt] is
    later. If the first completed backup has no valid [completedAt], it is
    the last backup, whatever the others are. *)
Theorem X18_last_backup :
  forall (Date_time : Tools.maybe -> option Z)
         (completedBackups : list value),
    (Stats.lastBackup Date_time completedBackups = None
     <-> completedBackups = [])
    /\ forall (first : value) (rest : list value),
        completedBackups = first :: rest ->
        exists last : value,
          Stats.lastBackup Date_time completedBackups = Some last
          /\ In last completedBackups
          /\ (completedTime Date_time first = None -> last = first)
          /\ (forall t0 : Z,
                 completedTime Date_time first = Some t0 ->
                 exists tl : Z,
                   completedTime Date_time last = Some tl
                   /\ forall (b : value) (tb : Z),
                       In b completedBackups ->
                       completedTime Date_time b = Some tb ->
                       (tb <= tl)%Z).
Proof.
  intros Date_time completedBackups. split.
  - destruct completedBackups; split; intros H; try reflexivity;
      discriminate H.
  - intros first rest ->. cbn [Stats.lastBackup].
    destruct (latest_fold Date_time rest first) as [Hin [Hnan Hmax]].
    eexists. split; [reflexivity|]. split; [exact Hin|].
    split; [exact Hnan|].
    intros t0 Ht0. destruct (Hmax t0 Ht0) as [tl [Htl [Hle Hall]]].
    exists tl. split; [exact Htl|].
    intros b tb [<-|Hb] Htb; [|now apply (Hall b)].
    rewrite Ht0 in Htb. injection Htb as <-. exact Hle.
Qed.

Lemma X18_last_backup_witness :
  exists last : value,
    Stats.lastBackup exampleTime
      [VObj [("id", VStr "b1")];
       VObj [("id", VStr "b2"); ("completedAt", VNum 5)]]
    = Some last
    /\ last = VObj [("id", VStr "b1")].
Proof.
  destruct (proj2 (X18_last_backup exampleTime
                     [VObj [("id", VStr "b1")];
                      VObj [("id", VStr "b2"); ("completedAt", VNum 5)]])
              (VObj [("id", VStr "b1")])
              [VObj [("id", VStr "b2"); ("completedAt", VNum 5)]]
              eq_refl) as [last [Hlast [_ [Hnan _]]]].
  exists last. split; [exact Hlast|]. apply Hnan. reflexivity.
Defined.

(** ** Health checks *)

Lemma sliceFromStart_length {A : Type} (limit : Z) (items : list A) :
  length (Health.sliceFromStart limit items)
  = if (limit <? 0)%Z
    then length items - Z.to_nat (- limit)
    else Nat.min (Z.to_nat limit) (length items).
Proof.
  unfold Health.sliceFromStart. rewrite length_firstn.
  destruct (Z.ltb_spec limit 0); lia.
Qed.

Lemma mapItems_each {A : Type} (f : value -> Tools.attempt A)
  (items : list value) :
  forall result : list A,
    Tools.mapItems f items = inr result ->
    Forall2 (fun item y => f item = inr y) items result.
Proof.
  induction items as [|item rest IH]; intros result Hmap.
  - injection Hmap as <-. constructor.
  - cbn [Tools.mapItems] in Hmap.
    destruct (f item) as [thrown|y] eqn:Hy; [discriminate|].
    cbn [Tools.andThen] in Hmap.
    destruct (Tools.mapItems f rest) as [thrown|ys]; [discriminate|].
    cbn [Tools.andThen] in Hmap. injection Hmap as <-.
    constructor; [exact Hy|now apply IH].
Qed.

(** X19: when the health check history is shown, the health checks were an
    array and the result is the projection of its first items, in order:
    [min(limit, length)] of them for a limit that is not negative, and all
    but the last [-limit] for a negative limit, which is neither refused
    nor read as zero. *)
Theorem X19_health_checks_limit :
  forall (TypeError_message : Tools.typeError -> string)
         (healthChecks : Tools.maybe) (limit : Z)
         (result : list Tools.literal),
    Health.recent TypeError_message healthChecks limit = inr result ->
    exists items : list value,
      healthChecks = Some (VArr items)
      /\ length result
         = (if (limit <? 0)%Z
            then length items - Z.to_nat (- limit)
            else Nat.min (Z.to_nat limit) (length items))
      /\ Forall2 (fun hc fields =>
                    Health.healthView TypeError_message hc = inr fields)
           (firstn (length result) items) result.
Proof.
  intros msg healthChecks limit result Hrecent.
  unfold Health.recent in Hrecent.
  destruct healthChecks as [[| | | |items|props]|]; try discriminate Hrecent.
  exists items. split; [reflexivity|].
  apply mapItems_each in Hrecent.
  pose proof (Forall2_length Hrecent) as Hlen.
  split.
  - rewrite <- Hlen. apply sliceFromStart_length.
  - rewrite <- Hlen. unfold Health.sliceFromStart in *.
    rewrite length_firstn.
    replace (firstn (Nat.min _ (length items)) items)
      with (firstn
              (Z.to_nat
                 (if (limit <? 0)%Z
                  then Z.max (Z.of_nat (length items) + limit) 0
                  else Z.min limit (Z.of_nat (length items)))) items);
      [exact Hrecent|].
    f_equal. destruct (Z.ltb_spec limit 0); lia.
Qed.

Lemma X19_health_checks_limit_witness :
  exists items : list value,
    Some (VArr [VObj [("id", VStr "h1")]; VObj [("id", VStr "h2")];
                VObj [("id", VStr "h3")]])
    = Some (VArr items)
    /\ 2 = (if (-1 <? 0)%Z
            then length items - Z.to_nat (- (-1))
            else Nat.min (Z.to_nat (-1)) (length items)).
Proof.
  destruct (X19_health_checks_limit exampleTypeError
              (Some (VArr [VObj [("id", VStr "h1")]; VObj [("id", VStr "h2")];
                           VObj [("id", VStr "h3")]]))
              (-1)%Z
              [[("id", Some (VStr "h1")); ("status", None);
                ("responseTimeMs", None); ("checkedAt", None);
                ("errorMessage", None)];
               [("id", Some (VStr "h2")); ("status", None);
                ("responseTimeMs", None); ("checkedAt", None);
                ("errorMessage", None)]]
              eq_refl) as [items [Hitems [Hlen _]]].
  exists items. split; [exact Hitems|exact Hlen].
Defined.
